(** * Milk Farm CRM: delivery tracking and staff/client assignment

    A shallow embedding of the server-side controllers
    [controllers/staff.ts] (assignment ledger, shift sessions, delivery
    recorder), [models/DailyDelivery.ts] (schema and unique index) and
    [controllers/dashboard.ts] (aggregation engine), with the properties
    the specification states about them, and of the bill of the staff
    dashboard ([handlePrintBill]), with further properties of the same
    code.

    Conventions of the embedding:
    - a MongoDB collection addressed by [_id] only ([Staff], [Client]) is
      a finite map from ids to documents; a collection that is searched
      by other fields ([StaffSession], [DailyDelivery]) is the list of
      its documents in natural (insertion) order;
    - a JavaScript [number] is an IEEE-754 binary64 value ([float]);
    - a JavaScript [Date] is its time value, the milliseconds since the
      epoch, an integer;
    - a controller is a function from the database to an HTTP outcome:
      [Ok] with the JSON payload and the database after the writes, or
      [Err] with the status code and message when the handler answers
      with an error and has written nothing;
    - an [ObjectId] is its canonical (lower-case, 24 digit) hexadecimal
      string, the form in which the server itself prints ids; the
      [ObjectId.isValid] guards at the head of each handler are the
      conversion of request text into this type. *)

From Stdlib Require Import Floats ZArith OrderedTypeEx.
From stdpp Require Import gmap strings list.

Local Open Scope string_scope.
Local Open Scope list_scope.
Local Open Scope Z_scope.

(** ** Data model *)

Definition ObjectId := string.

(** A JavaScript number. *)
Definition number := float.

(** An integer count (array length, [countDocuments]) as a number. *)
Definition number_of_nat (n : nat) : number :=
  PrimFloat.of_uint63 (Uint63.of_Z (Z.of_nat n)).

(** One entry of [client.deliveryHistory]. *)
Record HistoryEntry := mkHistoryEntry {
  h_date : Z;
  h_status : string;
  h_quantity : number;
  h_reason : option string
}.

(** Modelled from the spec: the [Client] model ([models/Client.ts]) is
    not among the sources.  These are the fields the controllers read or
    write, which are the attributes the data model gives a client
    profile: shift designation, daily quantity, price per unit, current
    delivery status, delivery notes, the append-only delivery history
    and at most one assigned-staff back-reference. *)
Record ClientDoc := mkClient {
  c_name : string;
  timeShift : string;
  c_quantity : number;
  pricePerLitre : number;
  c_deliveryStatus : string;
  deliveryNotes : option string;
  deliveryHistory : list HistoryEntry;
  assignedStaff : option ObjectId
}.

(** Modelled from the spec: the [Staff] model ([models/Staff.ts]) is not
    among the sources.  Of a staff profile the ledger reads and writes
    the assigned client references; display name and default shift stand
    for the attributes it leaves alone. *)
Record StaffDoc := mkStaff {
  s_name : string;
  s_shift : string;
  assignedClients : list ObjectId
}.

(** Modelled from the spec: the [StaffSession] model
    ([models/StaffSession.ts]) is not among the sources.  A session is
    "staff S selected shift X on calendar day D"; uniqueness per (staff,
    day) is left to the upsert, as the data model says. *)
Record SessionDoc := mkSession {
  ss_staffId : ObjectId;
  ss_date : Z;
  ss_shift : string
}.

(** A [DailyDelivery] document ([IDailyDelivery]). *)
Record DailyDeliveryDoc := mkDelivery {
  clientId : ObjectId;
  staffId : ObjectId;
  date : Z;
  shift : string;
  deliveryStatus : string;
  quantity : number;
  price : number;
  notes : option string
}.

Record DB := mkDB {
  staffs : gmap ObjectId StaffDoc;
  clients : gmap ObjectId ClientDoc;
  sessions : list SessionDoc;
  deliveries : list DailyDeliveryDoc
}.

(** Modelled from the spec: [getSetting] ([models/Settings.ts]) is not
    among the sources.  The settings provider supplies the enumerations
    of valid shifts and of valid delivery statuses; they are arguments
    of the handlers that read them. *)
Record Settings := mkSettings {
  setting_shifts : list string;
  setting_deliveryStatuses : list string
}.

(** The outcome of a request handler. *)
Inductive Response (A : Type) : Type :=
| Ok (payload : A) (db' : DB)
| Err (status : nat) (message : string).
Arguments Ok {A} payload db'.
Arguments Err {A} status message.

Definition set_assignedClients (l : list ObjectId) (s : StaffDoc) : StaffDoc :=
  {| s_name := s_name s; s_shift := s_shift s; assignedClients := l |}.

Definition set_assignedStaff (o : option ObjectId) (c : ClientDoc) : ClientDoc :=
  {| c_name := c_name c; timeShift := timeShift c; c_quantity := c_quantity c;
     pricePerLitre := pricePerLitre c; c_deliveryStatus := c_deliveryStatus c;
     deliveryNotes := deliveryNotes c; deliveryHistory := deliveryHistory c;
     assignedStaff := o |}.

Definition set_staffs (m : gmap ObjectId StaffDoc) (d : DB) : DB :=
  {| staffs := m; clients := clients d; sessions := sessions d;
     deliveries := deliveries d |}.

Definition set_clients (m : gmap ObjectId ClientDoc) (d : DB) : DB :=
  {| staffs := staffs d; clients := m; sessions := sessions d;
     deliveries := deliveries d |}.

Definition set_sessions (l : list SessionDoc) (d : DB) : DB :=
  {| staffs := staffs d; clients := clients d; sessions := l;
     deliveries := deliveries d |}.

Definition set_deliveries (l : list DailyDeliveryDoc) (d : DB) : DB :=
  {| staffs := staffs d; clients := clients d; sessions := sessions d;
     deliveries := l |}.

(** ** Assignment ledger *)

(** [assignClient]: both documents are changed in memory and then saved
    together ([Promise.all]). *)
Definition assignClient (sid cid : ObjectId) (db : DB) : Response StaffDoc :=
  match staffs db !! sid with
  | None => Err 404 "Staff member not found"
  | Some staff =>
    match clients db !! cid with
    | None => Err 404 "Client not found"
    | Some client =>
      if bool_decide (cid ∈ assignedClients staff) then
        Err 400 "Client already assigned to this staff member"
      else
        match assignedStaff client with
        | Some _ =>
          Err 400 "Client is already assigned to another staff member. Please unassign first."
        | None =>
          let staff' := set_assignedClients (assignedClients staff ++ [cid]) staff in
          let client' := set_assignedStaff (Some sid) client in
          Ok staff' (set_clients (<[cid := client']> (clients db))
                      (set_staffs (<[sid := staff']> (staffs db)) db))
        end
    end
  end.

(** [removeAssignment]. *)
Definition removeAssignment (sid cid : ObjectId) (db : DB) : Response StaffDoc :=
  match staffs db !! sid with
  | None => Err 404 "Staff member not found"
  | Some staff =>
    match clients db !! cid with
    | None => Err 404 "Client not found"
    | Some client =>
      if bool_decide (cid ∈ assignedClients staff) then
        let staff' :=
          set_assignedClients
            (filter (λ id, id ≠ cid) (assignedClients staff)) staff in
        let client' := set_assignedStaff None client in
        Ok staff' (set_clients (<[cid := client']> (clients db))
                    (set_staffs (<[sid := staff']> (staffs db)) db))
      else Err 400 "This client is not assigned to this staff member"
    end
  end.

(** [Client.find({ _id: { $in: ids } })]: the client documents whose id
    is among [ids], each once. *)
Definition find_clients_in (ids : list ObjectId) (db : DB)
  : list (ObjectId * ClientDoc) :=
  filter (λ p, p.1 ∈ ids) (map_to_list (clients db)).

(** [updateAssignedClients]: only the staff document is saved. *)
Definition updateAssignedClients (sid : ObjectId) (sh : string) (db : DB)
  : Response nat :=
  if bool_decide (sh ∈ ["AM"; "PM"]) then
    match staffs db !! sid with
    | None => Err 404 "Staff member not found"
    | Some staff =>
      let allAssignedClients := find_clients_in (assignedClients staff) db in
      let filteredClientIds :=
        (filter (λ p, timeShift p.2 = sh) allAssignedClients).*1 in
      let staff' := set_assignedClients filteredClientIds staff in
      Ok (length filteredClientIds)
         (set_staffs (<[sid := staff']> (staffs db)) db)
    end
  else Err 400 "Valid shift (AM or PM) is required".

(** The ledger invariant as the specification words it: a client has a
    staff back-reference exactly when some staff's assignment set
    contains the client's id. *)
Definition ledger_consistent (db : DB) : Prop :=
  ∀ cid c, clients db !! cid = Some c →
    (is_Some (assignedStaff c) ↔
     ∃ sid s, staffs db !! sid = Some s ∧ cid ∈ assignedClients s).

(** The invariant that [assignClient] and [removeAssignment] maintain:
    the back-reference names exactly the staff whose set holds the
    client. *)
Definition ledger_exact (db : DB) : Prop :=
  ∀ cid c sid, clients db !! cid = Some c →
    (assignedStaff c = Some sid ↔
     ∃ s, staffs db !! sid = Some s ∧ cid ∈ assignedClients s).

(** The half of the invariant that [updateAssignedClients] maintains: a
    client in a staff member's set has that staff member as its
    back-reference. *)
Definition ledger_sound (db : DB) : Prop :=
  ∀ cid c sid s, clients db !! cid = Some c → staffs db !! sid = Some s →
    cid ∈ assignedClients s → assignedStaff c = Some sid.

(** ** Shift session tracker *)

(** The query [{ staffId, date: today }] of [selectShift]. *)
Definition session_key (sid : ObjectId) (today : Z) (s : SessionDoc) : Prop :=
  ss_staffId s = sid ∧ ss_date s = today.

#[global] Instance session_key_dec sid today s : Decision (session_key sid today s).
Proof. unfold session_key. apply _. Defined.

(** [selectShift]; [today] is the clock reading after
    [setHours(0, 0, 0, 0)], an absent [shift] in the body is the empty
    string.  [findOneAndUpdate] with [upsert] rewrites the first
    document that answers the query, or inserts one when none does. *)
Definition selectShift (cfg : Settings) (today : Z) (sid : ObjectId)
    (sh : string) (db : DB) : Response SessionDoc :=
  let validShifts := setting_shifts cfg in
  if bool_decide (sh = "" ∨ sh ∉ validShifts) then
    Err 400 ("Valid shift (" +:+ String.concat " or " validShifts +:+ ") is required")
  else
    match staffs db !! sid with
    | None => Err 404 "Staff member not found"
    | Some _ =>
      let doc := mkSession sid today sh in
      match list_find (session_key sid today) (sessions db) with
      | Some (i, _) => Ok doc (set_sessions (<[i := doc]> (sessions db)) db)
      | None => Ok doc (set_sessions (sessions db ++ [doc]) db)
      end
    end.

(** The sessions stored for one (staff, day). *)
Definition sessions_for (sid : ObjectId) (day : Z) (db : DB) : list SessionDoc :=
  filter (session_key sid day) (sessions db).

(** ** Delivery recorder *)

Definition day_ms : Z := 24 * 60 * 60 * 1000.

(** The query of the assignment-aware handlers:
    [{ clientId, staffId, date: { $gte: today, $lt: today + 24h } }]. *)
Definition daily_query (cid sid : ObjectId) (today : Z) (r : DailyDeliveryDoc)
  : Prop :=
  clientId r = cid ∧ staffId r = sid ∧ today ≤ date r ∧ date r < today + day_ms.

#[global] Instance daily_query_dec cid sid today r :
  Decision (daily_query cid sid today r).
Proof. unfold daily_query. apply _. Defined.

(** The key of the unique compound index
    [{ clientId: 1, date: 1, shift: 1 }]. *)
Definition index_key (r : DailyDeliveryDoc) : ObjectId * Z * string :=
  (clientId r, date r, shift r).

(** [DailyDelivery.findOneAndUpdate(query, { $set }, { upsert: true, new:
    true })] under the unique index.  [upd] is the effect of [$set] on a
    document that answers the query, [fresh] the document inserted when
    none does.  [None] is the duplicate-key error (E11000) the storage
    engine raises when the written document would share its index key
    with another document; nothing is written then. *)
Definition findOneAndUpdate (P : DailyDeliveryDoc → Prop)
    `{∀ r, Decision (P r)} (upd : DailyDeliveryDoc → DailyDeliveryDoc)
    (fresh : DailyDeliveryDoc) (coll : list DailyDeliveryDoc)
  : option (DailyDeliveryDoc * list DailyDeliveryDoc) :=
  match list_find P coll with
  | Some (i, r) =>
    let r' := upd r in
    if bool_decide (index_key r' ∈ index_key <$> delete i coll) then None
    else Some (r', <[i := r']> coll)
  | None =>
    if bool_decide (index_key fresh ∈ index_key <$> coll) then None
    else Some (fresh, coll ++ [fresh])
  end.

(** [deliveryStatuses.find((s) => s === name) || name]. *)
Definition status_setting (cfg : Settings) (name : string) : string :=
  match List.find (String.eqb name) (setting_deliveryStatuses cfg) with
  | Some s => s
  | None => name
  end.

Definition mirror_client (status : string) (note : option string)
    (entry : HistoryEntry) (c : ClientDoc) : ClientDoc :=
  {| c_name := c_name c; timeShift := timeShift c; c_quantity := c_quantity c;
     pricePerLitre := pricePerLitre c; c_deliveryStatus := status;
     deliveryNotes := note;
     deliveryHistory := deliveryHistory c ++ [entry];
     assignedStaff := assignedStaff c |}.

(** The document [markClientDailyDelivered] writes: the fields of its
    [$set], and [notes], which [$set] leaves as it finds it. *)
Definition delivered_doc (today : Z) (sid cid : ObjectId) (sh : string)
    (client : ClientDoc) (n : option string) : DailyDeliveryDoc :=
  mkDelivery cid sid today sh "Delivered" (c_quantity client)
    (PrimFloat.mul (c_quantity client) (pricePerLitre client)) n.

(** The document [markClientDailyUndelivered] writes. *)
Definition not_delivered_doc (today : Z) (sid cid : ObjectId) (sh : string)
    (reason : string) : DailyDeliveryDoc :=
  mkDelivery cid sid today sh "Not Delivered" 0%float 0%float (Some reason).

(** [markClientDailyDelivered] (route parameters [id], [clientId]; body
    [shift]).  A failure of [findOneAndUpdate] is caught by the handler's
    [catch], which answers 500 before the client is touched. *)
Definition markClientDailyDelivered (cfg : Settings) (today : Z)
    (sid cid : ObjectId) (sh : string) (db : DB) : Response DailyDeliveryDoc :=
  if bool_decide (sh = "") then Err 400 "Shift is required" else
  match staffs db !! sid with
  | None => Err 404 "Staff member not found"
  | Some staff =>
    match clients db !! cid with
    | None => Err 404 "Client not found"
    | Some client =>
      if bool_decide (cid ∈ assignedClients staff) then
        let deliveredStatus := status_setting cfg "Delivered" in
        match
          findOneAndUpdate (daily_query cid sid today)
            (λ r, delivered_doc today sid cid sh client (notes r))
            (delivered_doc today sid cid sh client None)
            (deliveries db)
        with
        | None => Err 500 "Error updating delivery status"
        | Some (dailyDelivery, coll) =>
          let client' :=
            mirror_client deliveredStatus (deliveryNotes client)
              (mkHistoryEntry today deliveredStatus (c_quantity client) None)
              client in
          Ok dailyDelivery
             (set_clients (<[cid := client']> (clients db))
                (set_deliveries coll db))
        end
      else Err 400 "This client is not assigned to this staff member"
    end
  end.

(** [markClientDailyUndelivered] (body [reason], [shift]); an absent
    [reason] is the empty string. *)
Definition markClientDailyUndelivered (cfg : Settings) (today : Z)
    (sid cid : ObjectId) (reason sh : string) (db : DB)
  : Response DailyDeliveryDoc :=
  if bool_decide (sh = "") then Err 400 "Shift is required" else
  if bool_decide (reason = "") then
    Err 400 "Reason is required for non-delivery" else
  match staffs db !! sid with
  | None => Err 404 "Staff member not found"
  | Some staff =>
    match clients db !! cid with
    | None => Err 404 "Client not found"
    | Some client =>
      if bool_decide (cid ∈ assignedClients staff) then
        let notDeliveredStatus := status_setting cfg "Not Delivered" in
        match
          findOneAndUpdate (daily_query cid sid today)
            (λ r, not_delivered_doc today sid cid sh reason)
            (not_delivered_doc today sid cid sh reason)
            (deliveries db)
        with
        | None => Err 500 "Error updating delivery status"
        | Some (dailyDelivery, coll) =>
          let client' :=
            mirror_client notDeliveredStatus (Some reason)
              (mkHistoryEntry today notDeliveredStatus 0%float (Some reason))
              client in
          Ok dailyDelivery
             (set_clients (<[cid := client']> (clients db))
                (set_deliveries coll db))
        end
      else Err 400 "This client is not assigned to this staff member"
    end
  end.

(** The database a request leaves behind: an error response has written
    nothing. *)
Definition db_after {A} (r : Response A) (db : DB) : DB :=
  match r with
  | Ok _ db' => db'
  | Err _ _ => db
  end.

(** The stored records of one (client, day, shift). *)
Definition records_for (cid : ObjectId) (day : Z) (sh : string) (db : DB)
  : list DailyDeliveryDoc :=
  filter (λ r, index_key r = (cid, day, sh)) (deliveries db).

(** What the unique index guarantees of the collection. *)
Definition unique_index (db : DB) : Prop :=
  NoDup (index_key <$> deliveries db).

(** [ids] call [markClientDailyDelivered] one after the other for the
    same client, day and shift. *)
Definition repeat_delivered (cfg : Settings) (today : Z) (cid : ObjectId)
    (sh : string) (ids : list ObjectId) (db : DB) : DB :=
  foldl (λ d sid, db_after (markClientDailyDelivered cfg today sid cid sh d) d)
        db ids.

(** The collection once [sid0] has recorded the delivery [r0] of [cid]
    for the day and shift: [r0] is the first document the query of
    [sid0] answers, no other document holds its key, and [sid0] may
    record for [cid] again. *)
Definition recorded (today : Z) (sid0 cid : ObjectId) (sh : string)
    (r0 : DailyDeliveryDoc) (coll : list DailyDeliveryDoc) (db : DB) : Prop :=
  deliveries db = coll ∧
  (∃ l1 l2, coll = l1 ++ r0 :: l2 ∧
            filter (daily_query cid sid0 today) l1 = [] ∧
            index_key r0 ∉ index_key <$> l1 ++ l2) ∧
  sh ≠ "" ∧
  (∃ staff, staffs db !! sid0 = Some staff ∧ cid ∈ assignedClients staff) ∧
  (∃ client, clients db !! cid = Some client ∧
             r0 = delivered_doc today sid0 cid sh client (notes r0)).

(** The [enum] of [deliveryStatus] in [dailyDeliverySchema]. *)
Definition schema_status (s : string) : Prop :=
  s = "Delivered" ∨ s = "Not Delivered".

Definition schema_valid (db : DB) : Prop :=
  Forall (λ r, schema_status (deliveryStatus r)) (deliveries db).

(** ** Aggregation engine *)

(** The calendar of the aggregation operators, which read a date in UTC. *)
Module Calendar.

Definition days_of_ms (t : Z) : Z := t / 86400000.

(** Proleptic Gregorian (year, month, day) of a day count from
    1970-01-01. *)
Definition civil_of_days (n : Z) : Z * Z * Z :=
  let z := n + 719468 in
  let era := z / 146097 in
  let doe := z - era * 146097 in
  let yoe := (doe - doe / 1460 + doe / 36524 - doe / 146096) / 365 in
  let doy := doe - (365 * yoe + yoe / 4 - yoe / 100) in
  let mp := (5 * doy + 2) / 153 in
  let d := doy - (153 * mp + 2) / 5 + 1 in
  let m := if mp <? 10 then mp + 3 else mp - 9 in
  let y := yoe + era * 400 in
  (if m <=? 2 then y + 1 else y, m, d).

Definition days_of_civil (y m d : Z) : Z :=
  let y' := if m <=? 2 then y - 1 else y in
  let era := y' / 400 in
  let yoe := y' - era * 400 in
  let doy := (153 * (if 2 <? m then m - 3 else m + 9) + 2) / 5 + d - 1 in
  let doe := yoe * 365 + yoe / 4 - yoe / 100 + doy in
  era * 146097 + doe - 719468.

Definition year (t : Z) : Z := (civil_of_days (days_of_ms t)).1.1.
Definition month (t : Z) : Z := (civil_of_days (days_of_ms t)).1.2.
Definition dayOfMonth (t : Z) : Z := (civil_of_days (days_of_ms t)).2.

(** [$week]: 0 to 53, weeks begin on Sunday, the days before the first
    Sunday of the year are week 0. *)
Definition week (t : Z) : Z :=
  let n := days_of_ms t in
  let yday := n - days_of_civil (year t) 1 1 in
  let wday := (n + 4) mod 7 in
  (yday + 7 - wday) / 7.

(** The last [w] decimal digits of [n], most significant first. *)
Fixpoint digits (w : nat) (n : Z) (acc : string) : string :=
  match w with
  | O => acc
  | S w' =>
    digits w' (n / 10)
      (String (Ascii.ascii_of_nat (48 + Z.to_nat (n mod 10))) acc)
  end.

(** [$dateToString] with format [%Y-%m-%d]. *)
Definition dateToString (t : Z) : string :=
  digits 4 (year t) ("-" +:+ digits 2 (month t) ("-" +:+ digits 2 (dayOfMonth t) "")).

End Calendar.

(** The [_id] of a trend group: a string for [daily], a number for
    [weekly], a document [{ year, month }] for [monthly]. *)
Inductive BucketKey :=
| DayKey (day : string)
| WeekKey (week : Z)
| MonthKey (year month : Z).

#[global] Instance BucketKey_eq_dec : EqDecision BucketKey.
Proof. solve_decision. Defined.

(** The [switch (period)] of [getDeliveryTrends]. *)
Definition groupBy (period : string) (t : Z) : BucketKey :=
  if bool_decide (period = "weekly") then WeekKey (Calendar.week t)
  else if bool_decide (period = "monthly") then
    MonthKey (Calendar.year t) (Calendar.month t)
  else DayKey (Calendar.dateToString t).

(** The order [$sort] uses on group ids: numbers before strings before
    documents, numbers by value, strings by their bytes, documents field
    by field. *)
Definition key_leb (a b : BucketKey) : bool :=
  match a, b with
  | WeekKey x, WeekKey y => x <=? y
  | WeekKey _, _ => true
  | DayKey _, WeekKey _ => false
  | DayKey x, DayKey y => String.leb x y
  | DayKey _, MonthKey _ _ => true
  | MonthKey y1 m1, MonthKey y2 m2 => (y1 <? y2) || ((y1 =? y2) && (m1 <=? m2))
  | MonthKey _ _, _ => false
  end.

(** The match stage [{ date: { $gte: start, $lte: end } }]. *)
Definition in_range (startDate endDate : Z) (r : DailyDeliveryDoc) : Prop :=
  startDate ≤ date r ∧ date r ≤ endDate.

#[global] Instance in_range_dec a b r : Decision (in_range a b r).
Proof. unfold in_range. apply _. Defined.

(** [$cond: [{ $eq: ["$deliveryStatus", s] }, 1, 0]]. *)
Definition cond_status (s : string) (r : DailyDeliveryDoc) : nat :=
  if bool_decide (deliveryStatus r = s) then 1%nat else 0%nat.

(** An accumulated group of the [$group] stage of [getDeliveryTrends]. *)
Record TrendGroup := mkTrendGroup {
  g_id : BucketKey;
  g_totalDeliveries : nat;
  g_successfulDeliveries : nat;
  g_totalQuantity : number;
  g_totalRevenue : number
}.

Definition trend_accumulate (g : TrendGroup) (r : DailyDeliveryDoc) : TrendGroup :=
  {| g_id := g_id g;
     g_totalDeliveries := g_totalDeliveries g + 1;
     g_successfulDeliveries := g_successfulDeliveries g + cond_status "delivered" r;
     g_totalQuantity := PrimFloat.add (g_totalQuantity g) (quantity r);
     g_totalRevenue := PrimFloat.add (g_totalRevenue g) (price r) |}.

Fixpoint trend_group_add (k : BucketKey) (r : DailyDeliveryDoc)
    (groups : list TrendGroup) : list TrendGroup :=
  match groups with
  | [] => [trend_accumulate (mkTrendGroup k 0 0 0%float 0%float) r]
  | g :: gs =>
    if decide (g_id g = k) then trend_accumulate g r :: gs
    else g :: trend_group_add k r gs
  end.

Definition trend_group_stage (period : string) (docs : list DailyDeliveryDoc)
  : list TrendGroup :=
  foldl (λ gs r, trend_group_add (groupBy period (date r)) r gs) [] docs.

(** One element of the array [getDeliveryTrends] answers with. *)
Record TrendBucket := mkTrendBucket {
  period : BucketKey;
  totalDeliveries : nat;
  successfulDeliveries : nat;
  successRate : number;
  totalQuantity : number;
  totalRevenue : number
}.

(** The [$project] stage. *)
Definition trend_project (g : TrendGroup) : TrendBucket :=
  {| period := g_id g;
     totalDeliveries := g_totalDeliveries g;
     successfulDeliveries := g_successfulDeliveries g;
     successRate :=
       PrimFloat.mul
         (if bool_decide (g_totalDeliveries g = 0%nat) then 0%float
          else PrimFloat.div (number_of_nat (g_successfulDeliveries g))
                             (number_of_nat (g_totalDeliveries g)))
         100%float;
     totalQuantity := g_totalQuantity g;
     totalRevenue := g_totalRevenue g |}.

(** A [$sort] stage: insertion into an ordered list. *)
Fixpoint sort_insert {A} (leb : A → A → bool) (x : A) (l : list A) : list A :=
  match l with
  | [] => [x]
  | y :: l' => if leb x y then x :: l else y :: sort_insert leb x l'
  end.

Definition sort_by {A} (leb : A → A → bool) (l : list A) : list A :=
  foldr (sort_insert leb) [] l.

(** [getDeliveryTrends] once the range is resolved: [start] and [end] are
    the bounds after [setHours]. *)
Definition getDeliveryTrends (period_ : string) (startDate endDate : Z) (db : DB)
  : list TrendBucket :=
  sort_by (λ a b, key_leb (period a) (period b))
    (trend_project <$>
       trend_group_stage period_ (filter (in_range startDate endDate) (deliveries db))).

(** One element of the array [getNonDeliveryReasons] answers with. *)
Record ReasonCount := mkReasonCount {
  reason : string;
  count : nat
}.

(** The match stage of [getNonDeliveryReasons]. *)
Definition reasons_match (startDate endDate : Z) (r : DailyDeliveryDoc) : Prop :=
  in_range startDate endDate r ∧ deliveryStatus r = "not_delivered" ∧
  ∃ n, notes r = Some n ∧ n ≠ "".

#[global] Instance reasons_match_dec a b r : Decision (reasons_match a b r).
Proof.
  unfold reasons_match.
  destruct (notes r) as [n|].
  - destruct (decide (in_range a b r ∧ deliveryStatus r = "not_delivered" ∧ n ≠ "")) as [H|H].
    + left. destruct H as (?&?&?). eauto.
    + right. intros (?&?&m&Hm&?). injection Hm as <-. tauto.
  - right. intros (?&?&m&Hm&?). discriminate.
Defined.

Fixpoint reason_group_add (k : string) (groups : list ReasonCount)
  : list ReasonCount :=
  match groups with
  | [] => [mkReasonCount k 1]
  | g :: gs =>
    if decide (reason g = k) then mkReasonCount k (count g + 1) :: gs
    else g :: reason_group_add k gs
  end.

Definition reason_group_stage (docs : list DailyDeliveryDoc) : list ReasonCount :=
  foldl (λ gs r, reason_group_add (default "" (notes r)) gs) [] docs.

(** [getNonDeliveryReasons] once the range is resolved. *)
Definition getNonDeliveryReasons (startDate endDate : Z) (db : DB)
  : list ReasonCount :=
  sort_by (λ a b, (count b <=? count a)%nat)
    (reason_group_stage (filter (reasons_match startDate endDate) (deliveries db))).

(** What the specification asks of the tally: the stored records of the
    range with status Not Delivered and a non-empty note. *)
Definition not_delivered_with_note (startDate endDate : Z) (r : DailyDeliveryDoc)
  : Prop :=
  in_range startDate endDate r ∧ deliveryStatus r = "Not Delivered" ∧
  ∃ n, notes r = Some n ∧ n ≠ "".

#[global] Instance not_delivered_with_note_dec a b r :
  Decision (not_delivered_with_note a b r).
Proof.
  unfold not_delivered_with_note.
  destruct (notes r) as [n|].
  - destruct (decide (in_range a b r ∧ deliveryStatus r = "Not Delivered" ∧ n ≠ ""))
      as [H|H].
    + left. destruct H as (?&?&?). eauto.
    + right. intros (?&?&m&Hm&?). injection Hm as <-. tauto.
  - right. intros (?&?&m&Hm&?). discriminate.
Defined.

(** The result of [getDeliverySuccessRate]. *)
Record SuccessRate := mkSuccessRate {
  sr_total : nat;
  sr_delivered : nat;
  sr_successRate : number
}.

Definition countDocuments (P : DailyDeliveryDoc → Prop) `{∀ r, Decision (P r)}
    (db : DB) : nat :=
  length (filter P (deliveries db)).

Definition getDeliverySuccessRate (startDate endDate : Z) (db : DB) : SuccessRate :=
  let totalDeliveries := countDocuments (in_range startDate endDate) db in
  let deliveredCount :=
    countDocuments
      (λ r, in_range startDate endDate r ∧ deliveryStatus r = "Delivered") db in
  {| sr_total := totalDeliveries;
     sr_delivered := deliveredCount;
     sr_successRate :=
       if bool_decide (0 < totalDeliveries)%nat then
         PrimFloat.mul
           (PrimFloat.div (number_of_nat deliveredCount)
                          (number_of_nat totalDeliveries))
           100%float
       else 0%float |}.

(** Each element of the list is below its successor. *)
Fixpoint ascending {A} (leb : A → A → bool) (l : list A) : Prop :=
  match l with
  | [] => True
  | x :: l' =>
    match l' with
    | [] => True
    | y :: _ => leb x y = true
    end ∧ ascending leb l'
  end.

(** ** A small dairy

    One client, Asha, who takes 5 litres at 10 a litre in the PM shift,
    and two delivery staff, Ravi and Meena. *)

Definition staff_ravi : ObjectId := "64b7f0a1c2d3e4f5a6b7c801".
Definition staff_meena : ObjectId := "64b7f0a1c2d3e4f5a6b7c802".
Definition client_asha : ObjectId := "64b7f0a1c2d3e4f5a6b7c901".
Definition client_bala : ObjectId := "64b7f0a1c2d3e4f5a6b7c902".

Definition cfg0 : Settings :=
  mkSettings ["AM"; "PM"] ["Delivered"; "Not Delivered"].

(** 2024-03-10T00:00:00.000Z. *)
Definition day0 : Z := 1710028800000.

Definition asha (backref : option ObjectId) : ClientDoc :=
  mkClient "Asha" "PM" 5%float 10%float "Pending" None [] backref.

Definition staffs0 (ravi meena : list ObjectId) : gmap ObjectId StaffDoc :=
  {[ staff_ravi := mkStaff "Ravi" "AM" ravi;
     staff_meena := mkStaff "Meena" "PM" meena ]}.

(** Nobody is assigned. *)
Definition db_unassigned : DB :=
  mkDB (staffs0 [] []) {[ client_asha := asha None ]} [] [].

(** Asha is assigned to Ravi. *)
Definition db_assigned : DB :=
  mkDB (staffs0 [client_asha] []) {[ client_asha := asha (Some staff_ravi) ]}
       [] [].

(** [db_assigned] after Ravi's assignments were reconciled for AM. *)
Definition db_reconciled : DB :=
  mkDB (staffs0 [] []) {[ client_asha := asha (Some staff_ravi) ]} [] [].

(** Ravi's record of a delivery to Asha on [day0], PM shift. *)
Definition ravi_delivered : DailyDeliveryDoc :=
  mkDelivery client_asha staff_ravi day0 "PM" "Delivered" 5%float 50%float None.

(** Ravi's record of a failed delivery to Asha on [day0], PM shift. *)
Definition ravi_not_delivered : DailyDeliveryDoc :=
  mkDelivery client_asha staff_ravi day0 "PM" "Not Delivered" 0%float 0%float
    (Some "gate locked").

Definition asha_delivered (backref : option ObjectId) : ClientDoc :=
  mkClient "Asha" "PM" 5%float 10%float "Delivered" None
    [mkHistoryEntry day0 "Delivered" 5%float None] backref.

(** [db_assigned] after Ravi has recorded the delivery. *)
Definition db_delivered : DB :=
  mkDB (staffs0 [client_asha] [])
       {[ client_asha := asha_delivered (Some staff_ravi) ]}
       [] [ravi_delivered].

(** [db_assigned] after Ravi has recorded the failed delivery. *)
Definition db_not_delivered : DB :=
  mkDB (staffs0 [client_asha] [])
       {[ client_asha :=
            mkClient "Asha" "PM" 5%float 10%float "Not Delivered"
              (Some "gate locked")
              [mkHistoryEntry day0 "Not Delivered" 0%float (Some "gate locked")]
              (Some staff_ravi) ]}
       [] [ravi_not_delivered].

(** [db_delivered] after Asha was taken from Ravi. *)
Definition db_released : DB :=
  mkDB (staffs0 [] []) {[ client_asha := asha_delivered None ]}
       [] [ravi_delivered].

(** [db_released] after Asha was given to Meena. *)
Definition db_reassigned : DB :=
  mkDB (staffs0 [] [client_asha])
       {[ client_asha := asha_delivered (Some staff_meena) ]}
       [] [ravi_delivered].

(** Three records on [day0], two of them delivered. *)
Definition db_three : DB :=
  mkDB ∅ ∅ []
    [ mkDelivery client_asha staff_ravi day0 "AM" "Delivered" 5%float 50%float None;
      mkDelivery client_asha staff_ravi day0 "PM" "Not Delivered" 0%float 0%float
        (Some "gate locked");
      mkDelivery client_bala staff_meena day0 "AM" "Delivered" 2%float 30%float None ].

(** ** Further handlers of the staff controller *)

(** The staff controller's [remove]: [Staff.findByIdAndDelete]; no other
    collection is touched. *)
Definition removeStaff (sid : ObjectId) (db : DB) : Response string :=
  match staffs db !! sid with
  | None => Err 404 "Staff member not found"
  | Some _ =>
    Ok "Staff member deleted successfully"
       (set_staffs (delete sid (staffs db)) db)
  end.

(** [getSessionByDate]; [sessionDate] is the date of the route, or the
    clock when the route has none, after [setHours(0, 0, 0, 0)]. *)
Definition getSessionByDate (sessionDate : Z) (sid : ObjectId) (db : DB)
  : Response SessionDoc :=
  match list_find (session_key sid sessionDate) (sessions db) with
  | Some (_, session) => Ok session db
  | None => Err 404 "No shift selected for this date"
  end.

(** What [select("_id name number location timeShift quantity
    pricePerLitre deliveryStatus")] keeps of a client, among the fields
    of [ClientDoc]. *)
Record ClientRow := mkClientRow {
  row_id : ObjectId;
  row_name : string;
  row_timeShift : string;
  row_quantity : number;
  row_pricePerLitre : number;
  row_deliveryStatus : string
}.

Definition client_row (p : ObjectId * ClientDoc) : ClientRow :=
  mkClientRow p.1 (c_name p.2) (timeShift p.2) (c_quantity p.2)
    (pricePerLitre p.2) (c_deliveryStatus p.2).

(** [getAssignedClients]; [includeAll] is [includeAll === "true"],
    [today] the clock after [setHours(0, 0, 0, 0)]. *)
Definition getAssignedClients (today : Z) (includeAll : bool) (sid : ObjectId)
    (db : DB) : Response (list ClientRow) :=
  match staffs db !! sid with
  | None => Err 404 "Staff member not found"
  | Some staff =>
    match assignedClients staff with
    | [] => Ok [] db
    | _ :: _ =>
      let assigned :=
        sort_by (λ a b, String.leb (row_name a) (row_name b))
          (client_row <$> find_clients_in (assignedClients staff) db) in
      if includeAll then Ok assigned db
      else
        match list_find (session_key sid today) (sessions db) with
        | Some (_, staffSession) =>
          if bool_decide (ss_shift staffSession = "") then Ok assigned db
          else
            Ok (filter (λ c, row_timeShift c = ss_shift staffSession) assigned) db
        | None => Ok assigned db
        end
    end
  end.

(** The query of the handlers that do not ask who delivers:
    [{ clientId, date: { $gte: today, $lt: today + 24h } }]. *)
Definition client_day_query (cid : ObjectId) (today : Z) (r : DailyDeliveryDoc)
  : Prop :=
  clientId r = cid ∧ today ≤ date r ∧ date r < today + day_ms.

#[global] Instance client_day_query_dec cid today r :
  Decision (client_day_query cid today r).
Proof. unfold client_day_query. apply _. Defined.

(** The [pre("save")] hook of the schema on a document whose date was
    set: the date is taken to the midnight before it. *)
Definition pre_save (midnight : Z → Z) (r : DailyDeliveryDoc) : DailyDeliveryDoc :=
  mkDelivery (clientId r) (staffId r) (midnight (date r)) (shift r)
    (deliveryStatus r) (quantity r) (price r) (notes r).

(** [new DailyDelivery(doc).save()]: the hook, the validation of the
    [shift] enum and the unique index.  [None] is the error [save]
    throws. *)
Definition save_new (midnight : Z → Z) (r : DailyDeliveryDoc)
    (coll : list DailyDeliveryDoc)
  : option (DailyDeliveryDoc * list DailyDeliveryDoc) :=
  let r' := pre_save midnight r in
  if bool_decide (shift r' ∈ ["AM"; "PM"]) then
    if bool_decide (index_key r' ∈ index_key <$> coll) then None
    else Some (r', coll ++ [r'])
  else None.

Definition set_client_status (status : string) (note : option string)
    (c : ClientDoc) : ClientDoc :=
  {| c_name := c_name c; timeShift := timeShift c; c_quantity := c_quantity c;
     pricePerLitre := pricePerLitre c; c_deliveryStatus := status;
     deliveryNotes := note; deliveryHistory := deliveryHistory c;
     assignedStaff := assignedStaff c |}.

(** [markClientDelivered] (route parameter [id]).  [now] is the clock,
    [midnight] takes a time to the local midnight before it, [user] is
    [req.user?._id].  [staffId] is required by the schema, so [save]
    throws when there is no user. *)
Definition markClientDelivered (midnight : Z → Z) (now : Z)
    (user : option ObjectId) (cid : ObjectId) (db : DB)
  : Response (ClientDoc * DailyDeliveryDoc) :=
  match clients db !! cid with
  | None => Err 404 "Client not found"
  | Some client =>
    let today := midnight now in
    let q := c_quantity client in
    let p := PrimFloat.mul (c_quantity client) (pricePerLitre client) in
    let client' := set_client_status "Delivered" (deliveryNotes client) client in
    match list_find (client_day_query cid today) (deliveries db) with
    | Some (i, delivery) =>
      match user with
      | None => Err 500 "Error updating delivery status"
      | Some u =>
        let delivery' :=
          mkDelivery (clientId delivery) u (date delivery) (shift delivery)
            "Delivered" q p (notes delivery) in
        Ok (client', delivery')
           (set_clients (<[cid := client']> (clients db))
              (set_deliveries (<[i := delivery']> (deliveries db)) db))
      end
    | None =>
      match user with
      | None => Err 500 "Error updating delivery status"
      | Some u =>
        match
          save_new midnight
            (mkDelivery cid u now (timeShift client) "Delivered" q p None)
            (deliveries db)
        with
        | None => Err 500 "Error updating delivery status"
        | Some (delivery, coll) =>
          Ok (client', delivery)
             (set_clients (<[cid := client']> (clients db))
                (set_deliveries coll db))
        end
      end
    end
  end.

(** [markClientUndelivered] (body [reason], absent or a string).
    [staffRecord] is the [_id] of the staff record of the authenticated
    user, when there is a user and a record. *)
Definition markClientUndelivered (midnight : Z → Z) (now : Z)
    (staffRecord : option ObjectId) (cid : ObjectId) (reason : option string)
    (db : DB) : Response (ClientDoc * DailyDeliveryDoc) :=
  match clients db !! cid with
  | None => Err 404 "Client not found"
  | Some client =>
    let today := midnight now in
    let client' := set_client_status "Not Delivered" reason client in
    match list_find (client_day_query cid today) (deliveries db) with
    | Some (i, delivery) =>
      let delivery' :=
        mkDelivery (clientId delivery)
          (default (staffId delivery) staffRecord)
          (date delivery) (shift delivery)
          "Not Delivered" 0%float 0%float reason in
      Ok (client', delivery')
         (set_clients (<[cid := client']> (clients db))
            (set_deliveries (<[i := delivery']> (deliveries db)) db))
    | None =>
      match staffRecord with
      | None => Err 500 "Error updating delivery status"
      | Some s =>
        match
          save_new midnight
            (mkDelivery cid s now (timeShift client) "Not Delivered"
               0%float 0%float reason)
            (deliveries db)
        with
        | None => Err 500 "Error updating delivery status"
        | Some (delivery, coll) =>
          Ok (client', delivery)
             (set_clients (<[cid := client']> (clients db))
                (set_deliveries coll db))
        end
      end
    end
  end.

(** The query of [markDailyDelivered] and [markDailyUndelivered]:
    [{ staffId, clientId, date }], the date compared as it is. *)
Definition exact_day_query (sid cid : ObjectId) (day : Z) (r : DailyDeliveryDoc)
  : Prop :=
  staffId r = sid ∧ clientId r = cid ∧ date r = day.

#[global] Instance exact_day_query_dec sid cid day r :
  Decision (exact_day_query sid cid day r).
Proof. unfold exact_day_query. apply _. Defined.

Definition set_deliveryStatus (status : string) (r : DailyDeliveryDoc)
  : DailyDeliveryDoc :=
  mkDelivery (clientId r) (staffId r) (date r) (shift r) status
    (quantity r) (price r) (notes r).

(** [markDailyDelivered] and [markDailyUndelivered] (body [staffId],
    [clientId], [date], [reason]); [day] is the time value of
    [date || new Date().toISOString().split("T")[0]].  The document
    they would create has no [shift], which the schema requires, so its
    [save] throws; [reason] is no path of the schema and is not
    stored. *)
Definition markDaily (status : string) (day : Z) (sid cid : ObjectId) (db : DB)
  : Response string :=
  match list_find (exact_day_query sid cid day) (deliveries db) with
  | None => Err 500 "Failed to update delivery status"
  | Some (i, dailyDelivery) =>
    Ok "Delivery status updated successfully"
       (set_deliveries
          (<[i := set_deliveryStatus status dailyDelivery]> (deliveries db)) db)
  end.

Definition markDailyDelivered : Z → ObjectId → ObjectId → DB → Response string :=
  markDaily "Delivered".

Definition markDailyUndelivered : Z → ObjectId → ObjectId → DB → Response string :=
  markDaily "Not Delivered".

(** [getDailyDeliveries]; [date] is the time value of the query
    parameter, [None] when it is absent.  The day ends 23:59:59.999
    after its midnight.  [populate("clientId")] joins the client
    document, or nothing when the client is gone. *)
Definition getDailyDeliveries (midnight : Z → Z) (date_ : option Z)
    (sid : ObjectId) (db : DB)
  : Response (list (DailyDeliveryDoc * option ClientDoc)) :=
  match date_ with
  | None => Err 400 "Date parameter is required"
  | Some d =>
    let queryDate := midnight d in
    let endDate := queryDate + day_ms - 1 in
    Ok ((λ r, (r, clients db !! clientId r))
          <$> filter (λ r, staffId r = sid ∧ in_range queryDate endDate r)
                (deliveries db))
       db
  end.

(** ** Further aggregations of the dashboard *)

(** A [$group] stage: the groups in the order in which their keys first
    occur; [start] makes the group of a first document, [acc] adds a
    document to its group. *)
Section Grouping.
Context {R K G : Type} `{EqDecision K}.
Variables (key : G → K) (start : K → R → G) (acc : G → R → G).

Fixpoint group_add (k : K) (r : R) (groups : list G) : list G :=
  match groups with
  | [] => [start k r]
  | g :: gs =>
    if decide (key g = k) then acc g r :: gs else g :: group_add k r gs
  end.

Definition group_stage (by_ : R → K) (docs : list R) : list G :=
  foldl (λ gs r, group_add (by_ r) r gs) [] docs.

End Grouping.

(** [$sum] of a numeric field. *)
Definition sum_numbers (l : list number) : number :=
  foldl PrimFloat.add 0%float l.

Record Totals := mkTotals {
  t_quantity : number;
  t_revenue : number
}.

Definition delivered_in_range (startDate endDate : Z) (r : DailyDeliveryDoc)
  : Prop :=
  in_range startDate endDate r ∧ deliveryStatus r = "Delivered".

#[global] Instance delivered_in_range_dec a b r :
  Decision (delivered_in_range a b r).
Proof. unfold delivered_in_range. apply _. Defined.

(** [getTodaysDeliveryTotal]: one group when a document matches, no
    group and the zero totals otherwise. *)
Definition getTodaysDeliveryTotal (startDate endDate : Z) (db : DB) : Totals :=
  match filter (delivered_in_range startDate endDate) (deliveries db) with
  | [] => mkTotals 0%float 0%float
  | matched =>
    mkTotals (sum_numbers (quantity <$> matched)) (sum_numbers (price <$> matched))
  end.

(** A group of [getStaffPerformance]. *)
Record StaffGroup := mkStaffGroup {
  sg_id : ObjectId;
  sg_deliveredCount : nat;
  sg_notDeliveredCount : nat;
  sg_totalQuantity : number;
  sg_totalRevenue : number
}.

Definition staff_accumulate (g : StaffGroup) (r : DailyDeliveryDoc) : StaffGroup :=
  {| sg_id := sg_id g;
     sg_deliveredCount := sg_deliveredCount g + cond_status "Delivered" r;
     sg_notDeliveredCount := sg_notDeliveredCount g + cond_status "Not Delivered" r;
     sg_totalQuantity := PrimFloat.add (sg_totalQuantity g) (quantity r);
     sg_totalRevenue := PrimFloat.add (sg_totalRevenue g) (price r) |}.

(** One element of the array [getStaffPerformance] answers with. *)
Record StaffPerformance := mkStaffPerformance {
  sp_id : ObjectId;
  sp_staffName : string;
  sp_deliveredCount : nat;
  sp_notDeliveredCount : nat;
  sp_totalQuantity : number;
  sp_totalRevenue : number;
  sp_successRate : number
}.

(** [$lookup] in [staffs], [$unwind] keeping the groups without staff,
    and [$project]. *)
Definition staff_project (db : DB) (g : StaffGroup) : StaffPerformance :=
  {| sp_id := sg_id g;
     sp_staffName :=
       match staffs db !! sg_id g with
       | Some staffInfo => s_name staffInfo
       | None => "Unknown Staff"
       end;
     sp_deliveredCount := sg_deliveredCount g;
     sp_notDeliveredCount := sg_notDeliveredCount g;
     sp_totalQuantity := sg_totalQuantity g;
     sp_totalRevenue := sg_totalRevenue g;
     sp_successRate :=
       PrimFloat.mul
         (if bool_decide
               ((sg_deliveredCount g + sg_notDeliveredCount g)%nat = 0%nat)
          then 0%float
          else PrimFloat.div (number_of_nat (sg_deliveredCount g))
                 (number_of_nat (sg_deliveredCount g + sg_notDeliveredCount g)))
         100%float |}.

Definition getStaffPerformance (startDate endDate : Z) (db : DB)
  : list StaffPerformance :=
  staff_project db
    <$> group_stage sg_id
          (λ k r, staff_accumulate (mkStaffGroup k 0 0 0%float 0%float) r)
          staff_accumulate staffId
          (filter (in_range startDate endDate) (deliveries db)).

(** A group of [getShiftAnalytics]. *)
Record ShiftGroup := mkShiftGroup {
  shg_id : string;
  shg_deliveryCount : nat;
  shg_deliveredCount : nat;
  shg_totalQuantity : number;
  shg_totalRevenue : number
}.

Definition shift_accumulate (g : ShiftGroup) (r : DailyDeliveryDoc) : ShiftGroup :=
  {| shg_id := shg_id g;
     shg_deliveryCount := shg_deliveryCount g + 1;
     shg_deliveredCount := shg_deliveredCount g + cond_status "Delivered" r;
     shg_totalQuantity := PrimFloat.add (shg_totalQuantity g) (quantity r);
     shg_totalRevenue := PrimFloat.add (shg_totalRevenue g) (price r) |}.

(** One element of the array [getShiftAnalytics] answers with. *)
Record ShiftAnalytics := mkShiftAnalytics {
  sa_shift : string;
  sa_deliveryCount : nat;
  sa_deliveredCount : nat;
  sa_successRate : number;
  sa_totalQuantity : number;
  sa_totalRevenue : number
}.

Definition shift_project (g : ShiftGroup) : ShiftAnalytics :=
  {| sa_shift := shg_id g;
     sa_deliveryCount := shg_deliveryCount g;
     sa_deliveredCount := shg_deliveredCount g;
     sa_successRate :=
       PrimFloat.mul
         (if bool_decide (shg_deliveryCount g = 0%nat) then 0%float
          else PrimFloat.div (number_of_nat (shg_deliveredCount g))
                 (number_of_nat (shg_deliveryCount g)))
         100%float;
     sa_totalQuantity := shg_totalQuantity g;
     sa_totalRevenue := shg_totalRevenue g |}.

Definition getShiftAnalytics (startDate endDate : Z) (db : DB)
  : list ShiftAnalytics :=
  shift_project
    <$> group_stage shg_id
          (λ k r, shift_accumulate (mkShiftGroup k 0 0 0%float 0%float) r)
          shift_accumulate shift
          (filter (in_range startDate endDate) (deliveries db)).

(** The match stage of [getTodaysDeliveryRecords]: the range, and the
    shift when [shiftFilter] is "AM" or "PM". *)
Definition records_match (startDate endDate : Z) (shiftFilter : string)
    (r : DailyDeliveryDoc) : Prop :=
  in_range startDate endDate r ∧
  (shiftFilter ∈ ["AM"; "PM"] → shift r = shiftFilter).

#[global] Instance records_match_dec a b f r : Decision (records_match a b f r).
Proof. unfold records_match. apply _. Defined.

(** The aggregation of [getTodaysDeliveryRecords], the [deliveryRecords]
    its last step renders: the matching records by descending date, the
    first of each client, joined with its client and its staff. *)
Definition todaysDeliveryRecords (startDate endDate : Z) (shiftFilter : string)
    (db : DB) : list (DailyDeliveryDoc * option ClientDoc * option StaffDoc) :=
  (λ r, (r, clients db !! clientId r, staffs db !! staffId r))
    <$> group_stage clientId (λ _ r, r) (λ g _, g) clientId
          (sort_by (λ a b, date b <=? date a)
             (filter (records_match startDate endDate shiftFilter)
                (deliveries db))).

(** The date filter of [getDeliveryHistory]: each bound when given. *)
Definition history_match (cid : ObjectId) (startDate endDate : option Z)
    (r : DailyDeliveryDoc) : Prop :=
  clientId r = cid ∧
  (∀ s, startDate = Some s → s ≤ date r) ∧
  (∀ e, endDate = Some e → date r ≤ e).

#[global] Instance history_match_dec cid a b r : Decision (history_match cid a b r).
Proof.
  unfold history_match. destruct a as [s|], b as [e|].
  - destruct (decide (clientId r = cid ∧ s ≤ date r ∧ date r ≤ e)) as [H|H].
    + left. destruct H as (?&?&?). split_and!; [done|by intros ? [= <-]..].
    + right. intros (?&Hs&He). apply H. split_and!; [done|by apply Hs|by apply He].
  - destruct (decide (clientId r = cid ∧ s ≤ date r)) as [H|H].
    + left. destruct H as (?&?). split_and!; [done|by intros ? [= <-]|done].
    + right. intros (?&Hs&He). apply H. split_and!; [done|by apply Hs].
  - destruct (decide (clientId r = cid ∧ date r ≤ e)) as [H|H].
    + left. destruct H as (?&?). split_and!; [done|done|by intros ? [= <-]].
    + right. intros (?&Hs&He). apply H. split_and!; [done|by apply He].
  - destruct (decide (clientId r = cid)) as [H|H].
    + left. split_and!; done.
    + right. intros (?&_&_). done.
Defined.

(** The payload of [getDeliveryHistory]. *)
Record DeliveryHistory := mkDeliveryHistory {
  dh_client : string;
  dh_deliveries : list (DailyDeliveryDoc * option string);
  dh_clientHistory : list HistoryEntry
}.

(** [getDeliveryHistory]: the client's records by descending date, each
    with the name of its staff when the staff resolves, and the
    client's own log. *)
Definition getDeliveryHistory (startDate endDate : option Z) (cid : ObjectId)
    (db : DB) : Response DeliveryHistory :=
  let deliveryHistory_ :=
    (λ r, (r, s_name <$> staffs db !! staffId r))
      <$> sort_by (λ a b, date b <=? date a)
            (filter (history_match cid startDate endDate) (deliveries db)) in
  match clients db !! cid with
  | None => Err 404 "Client not found"
  | Some client =>
    Ok (mkDeliveryHistory (c_name client) deliveryHistory_ (deliveryHistory client))
       db
  end.

(** ** Billing in the staff dashboard *)

(** An entry of [BillData]. *)
Record BillEntry := mkBillEntry {
  be_date : Z;
  be_quantity : number;
  be_pricePerLiter : number;
  be_subtotal : number
}.

(** The entries of [handlePrintBill]: the history of the month so far,
    each entry priced at the client's current price. *)
Definition billEntries (startOfMonth today : Z) (client : ClientDoc)
  : list BillEntry :=
  (λ record,
     mkBillEntry (h_date record) (h_quantity record) (pricePerLitre client)
       (PrimFloat.mul (h_quantity record) (pricePerLitre client)))
    <$> filter (λ record, startOfMonth ≤ h_date record ∧ h_date record ≤ today)
          (deliveryHistory client).

(** [entries.reduce((sum, entry) => sum + entry.subtotal, 0)]. *)
Definition totalAmount (entries : list BillEntry) : number :=
  foldl (λ sum entry, PrimFloat.add sum (be_subtotal entry)) 0%float entries.

(** ** Runs of requests *)

(** A request to the ledger. *)
Inductive LedgerRequest :=
| Assign (sid cid : ObjectId)
| Unassign (sid cid : ObjectId).

Definition ledger_step (db : DB) (rq : LedgerRequest) : DB :=
  match rq with
  | Assign sid cid => db_after (assignClient sid cid db) db
  | Unassign sid cid => db_after (removeAssignment sid cid db) db
  end.

Definition ledger_run (rqs : list LedgerRequest) (db : DB) : DB :=
  foldl ledger_step db rqs.

(** The payload of a response, when it is a success. *)
Definition payload_of {A} (r : Response A) : option A :=
  match r with
  | Ok a _ => Some a
  | Err _ _ => None
  end.

(** A request to select a shift: the day, the staff member, the shift. *)
Definition select_step (cfg : Settings) (db : DB) (rq : Z * ObjectId * string)
  : DB :=
  db_after (selectShift cfg rq.1.1 rq.1.2 rq.2 db) db.

Definition select_run (cfg : Settings) (rqs : list (Z * ObjectId * string))
    (db : DB) : DB :=
  foldl (select_step cfg) db rqs.

(** A request that writes delivery records. *)
Inductive RecorderRequest :=
| DailyDelivered (today : Z) (sid cid : ObjectId) (sh : string)
| DailyUndelivered (today : Z) (sid cid : ObjectId) (reason sh : string)
| ClientDelivered (now : Z) (user : option ObjectId) (cid : ObjectId)
| ClientUndelivered (now : Z) (staffRecord : option ObjectId) (cid : ObjectId)
    (reason : option string)
| FlipDelivered (day : Z) (sid cid : ObjectId)
| FlipUndelivered (day : Z) (sid cid : ObjectId).

Definition recorder_step (cfg : Settings) (midnight : Z → Z) (db : DB)
    (rq : RecorderRequest) : DB :=
  match rq with
  | DailyDelivered today sid cid sh =>
    db_after (markClientDailyDelivered cfg today sid cid sh db) db
  | DailyUndelivered today sid cid reason sh =>
    db_after (markClientDailyUndelivered cfg today sid cid reason sh db) db
  | ClientDelivered now user cid =>
    db_after (markClientDelivered midnight now user cid db) db
  | ClientUndelivered now staffRecord cid reason =>
    db_after (markClientUndelivered midnight now staffRecord cid reason db) db
  | FlipDelivered day sid cid => db_after (markDailyDelivered day sid cid db) db
  | FlipUndelivered day sid cid => db_after (markDailyUndelivered day sid cid db) db
  end.

Definition recorder_run (cfg : Settings) (midnight : Z → Z)
    (rqs : list RecorderRequest) (db : DB) : DB :=
  foldl (recorder_step cfg midnight) db rqs.

(** Every element is below all the elements after it. *)
Fixpoint sorted_all {A} (leb : A → A → bool) (l : list A) : Prop :=
  match l with
  | [] => True
  | x :: l' => Forall (λ y, leb x y = true) l' ∧ sorted_all leb l'
  end.

(** The step of a group stage that keeps [$first: "$$ROOT"]. *)
Definition first_step {R K} `{EqDecision K} (key : R → K) (gs : list R) (r : R)
  : list R :=
  group_add key (λ _ r, r) (λ g _, g) (key r) r gs.

(** ** More of the small dairy *)

(** The local midnight of a server whose time zone is UTC. *)
Definition utc_midnight (t : Z) : Z := t - t mod day_ms.

(** 2024-03-10T01:00:00.000Z. *)
Definition one_am : Z := day0 + 3600000.

(** [db_assigned] after Ravi has selected the PM shift on [day0]. *)
Definition db_selected : DB :=
  mkDB (staffs0 [client_asha] []) {[ client_asha := asha (Some staff_ravi) ]}
       [mkSession staff_ravi day0 "PM"] [].

(** * Lists as collections *)

Section Collections.
Context {A : Type} (P : A → Prop) `{!∀ x, Decision (P x)}.

Lemma filter_none (l : list A) : Forall (λ x, ¬ P x) l → filter P l = [].
Proof.
  induction 1 as [|x l Hx _ IH]; [done|].
  by rewrite filter_cons_False.
Qed.

Lemma filter_nil_none (l : list A) : filter P l = [] → Forall (λ x, ¬ P x) l.
Proof.
  intros Hnil. apply Forall_forall. intros x Hx HP.
  by apply (filter_nil_not_elem_of P l x).
Qed.

(** A collection split at the first document that answers a query. *)
Lemma list_find_split (l : list A) i x :
  list_find P l = Some (i, x) →
  l = take i l ++ x :: drop (S i) l ∧ P x ∧ filter P (take i l) = [] ∧
  length (take i l) = i.
Proof.
  intros (Hi & HPx & Hfirst)%list_find_Some.
  split_and!.
  - by rewrite take_drop_middle.
  - done.
  - apply filter_none, Forall_forall. intros y Hy.
    apply list_elem_of_lookup in Hy as [j Hj].
    pose proof (lookup_lt_Some _ _ _ Hj) as Hlt. rewrite length_take in Hlt.
    rewrite lookup_take_lt in Hj by lia. apply (Hfirst j y Hj). lia.
  - rewrite length_take. apply lookup_lt_Some in Hi. lia.
Qed.

Lemma insert_middle (l1 l2 : list A) x y :
  <[length l1 := y]> (l1 ++ x :: l2) = l1 ++ y :: l2.
Proof. by rewrite insert_app_r_alt, Nat.sub_diag by lia. Qed.

Lemma delete_middle (l1 l2 : list A) x :
  delete (length l1) (l1 ++ x :: l2) = l1 ++ l2.
Proof.
  induction l1 as [|z l1 IH]; [done|]. simpl. by rewrite IH.
Qed.

End Collections.

(** * Assignment ledger *)

Section Ledger.
Implicit Types (db : DB) (sid cid : ObjectId).

Lemma ledger_exact_consistent db : ledger_exact db → ledger_consistent db.
Proof.
  intros Hex cid c Hc. split.
  - intros [sid Hs]. exists sid. by apply (Hex cid c sid Hc).
  - intros (sid & s & Hs & Hin). exists sid. apply (Hex cid c sid Hc). eauto.
Qed.


Lemma set_assignedClients_same (s : StaffDoc) :
  set_assignedClients (assignedClients s) s = s.
Proof. by destruct s. Qed.

Lemma set_assignedStaff_same (c : ClientDoc) :
  set_assignedStaff (assignedStaff c) c = c.
Proof. by destruct c. Qed.

(** What a successful [assignClient] has checked and written. *)
Lemma assignClient_Ok sid cid db staff' db' :
  assignClient sid cid db = Ok staff' db' →
  ∃ staff client,
    staffs db !! sid = Some staff ∧ clients db !! cid = Some client ∧
    (cid ∉ assignedClients staff) ∧ assignedStaff client = None ∧
    staff' = set_assignedClients (assignedClients staff ++ [cid]) staff ∧
    db' = set_clients (<[cid := set_assignedStaff (Some sid) client]> (clients db))
            (set_staffs (<[sid := staff']> (staffs db)) db).
Proof.
  unfold assignClient. intros H.
  destruct (staffs db !! sid) as [staff|] eqn:Hs; [|done].
  destruct (clients db !! cid) as [client|] eqn:Hc; [|done].
  case_bool_decide as Hin; [done|].
  destruct (assignedStaff client) eqn:Ha; [done|].
  injection H as <- <-. exists staff, client. done.
Qed.

Lemma removeAssignment_Ok sid cid db staff' db' :
  removeAssignment sid cid db = Ok staff' db' →
  ∃ staff client,
    staffs db !! sid = Some staff ∧ clients db !! cid = Some client ∧
    cid ∈ assignedClients staff ∧
    staff' = set_assignedClients
               (filter (λ id, id ≠ cid) (assignedClients staff)) staff ∧
    db' = set_clients (<[cid := set_assignedStaff None client]> (clients db))
            (set_staffs (<[sid := staff']> (staffs db)) db).
Proof.
  unfold removeAssignment. intros H.
  destruct (staffs db !! sid) as [staff|] eqn:Hs; [|done].
  destruct (clients db !! cid) as [client|] eqn:Hc; [|done].
  case_bool_decide as Hin; [|done].
  injection H as <- <-. exists staff, client. done.
Qed.

(** [assignClient] keeps the ledger exact. *)
Lemma assignClient_preserves_ledger sid cid db staff' db' :
  ledger_exact db → assignClient sid cid db = Ok staff' db' → ledger_exact db'.
Proof.
  intros Hex Hok. apply assignClient_Ok in Hok
    as (staff & client & Hs & Hc & Hnin & Hnone & -> & ->).
  intros cid' c' sid'. simpl.
  destruct (decide (cid' = cid)) as [->|Hne].
  - rewrite lookup_insert_eq. intros [= <-]. simpl.
    destruct (decide (sid' = sid)) as [->|Hsne].
    + rewrite lookup_insert_eq. split; [|done].
      intros _. eexists; split; [done|]. simpl. set_solver.
    + rewrite lookup_insert_ne by done. split; [congruence|].
      intros Hex'. apply (Hex cid client sid' Hc) in Hex'. congruence.
  - rewrite lookup_insert_ne by done. intros Hc'.
    rewrite (Hex cid' c' sid' Hc').
    destruct (decide (sid' = sid)) as [->|Hsne].
    + rewrite lookup_insert_eq, Hs. split.
      * intros (s & [= <-] & Hin'). eexists; split; [done|]. simpl. set_solver.
      * intros (s & [= <-] & Hin'). eexists; split; [done|].
        simpl in Hin'. apply elem_of_app in Hin' as [Hin'|Hin']; [done|].
        apply list_elem_of_singleton in Hin'. congruence.
    + by rewrite lookup_insert_ne.
Qed.

(** [removeAssignment] keeps the ledger exact. *)
Lemma removeAssignment_preserves_ledger sid cid db staff' db' :
  ledger_exact db → removeAssignment sid cid db = Ok staff' db' → ledger_exact db'.
Proof.
  intros Hex Hok. apply removeAssignment_Ok in Hok
    as (staff & client & Hs & Hc & Hin & -> & ->).
  intros cid' c' sid'. simpl.
  destruct (decide (cid' = cid)) as [->|Hne].
  - rewrite lookup_insert_eq. intros [= <-]. simpl. split; [done|].
    intros (s & Hs' & Hin'). exfalso.
    destruct (decide (sid' = sid)) as [->|Hsne].
    + rewrite lookup_insert_eq in Hs'. injection Hs' as <-. simpl in Hin'.
      apply list_elem_of_filter in Hin' as [Hin' _]. by apply Hin'.
    + rewrite lookup_insert_ne in Hs' by done.
      assert (assignedStaff client = Some sid') as H1
        by (apply (Hex cid client sid' Hc); eauto).
      assert (assignedStaff client = Some sid) as H2
        by (apply (Hex cid client sid Hc); eauto).
      congruence.
  - rewrite lookup_insert_ne by done. intros Hc'.
    rewrite (Hex cid' c' sid' Hc').
    destruct (decide (sid' = sid)) as [->|Hsne].
    + rewrite lookup_insert_eq, Hs. split.
      * intros (s & [= <-] & Hin'). eexists; split; [done|]. simpl.
        apply list_elem_of_filter. done.
      * intros (s & [= <-] & Hin'). eexists; split; [done|].
        simpl in Hin'. apply list_elem_of_filter in Hin'. tauto.
    + by rewrite lookup_insert_ne.
Qed.

(** [updateAssignedClients] only removes clients from the set: what is
    left in a set still has its back-reference. *)
Lemma updateAssignedClients_preserves_sound sid sh db n db' :
  ledger_sound db → updateAssignedClients sid sh db = Ok n db' → ledger_sound db'.
Proof.
  intros Hsound. unfold updateAssignedClients.
  case_bool_decide as Hsh; [|done].
  destruct (staffs db !! sid) as [staff|] eqn:Hs; [|done].
  intros [= <- <-]. intros cid c sid' s Hc. simpl in *.
  destruct (decide (sid' = sid)) as [->|Hne].
  - rewrite lookup_insert_eq. intros [= <-]. simpl. intros Hin.
    apply (Hsound cid c sid staff Hc Hs).
    apply list_elem_of_fmap in Hin as ([cid' c'] & -> & Hin). simpl.
    apply list_elem_of_filter in Hin as [_ Hin].
    unfold find_clients_in in Hin.
    by apply list_elem_of_filter in Hin as [Hin _].
  - rewrite lookup_insert_ne by done. by apply Hsound.
Qed.

Lemma ledger_exact_sound db : ledger_exact db → ledger_sound db.
Proof. intros Hex cid c sid s Hc Hs Hin. apply (Hex cid c sid Hc). eauto. Qed.

End Ledger.

Lemma db_unassigned_exact : ledger_exact db_unassigned.
Proof.
  intros cid c sid Hc. simpl in Hc.
  apply lookup_singleton_Some in Hc as [<- <-]. simpl. split; [done|].
  intros (s & Hs & Hin). unfold staffs0 in Hs.
  apply lookup_insert_Some in Hs as [[_ <-]|[_ Hs]].
  - by apply elem_of_nil in Hin.
  - apply lookup_singleton_Some in Hs as [_ <-]. by apply elem_of_nil in Hin.
Qed.

Lemma assign_db_unassigned :
  assignClient staff_ravi client_asha db_unassigned
  = Ok (mkStaff "Ravi" "AM" [client_asha]) db_assigned.
Proof. reflexivity. Qed.

Lemma reconcile_db_assigned :
  updateAssignedClients staff_ravi "AM" db_assigned = Ok 0%nat db_reconciled.
Proof. reflexivity. Qed.

(** C1, at the input where the invariant breaks.  From an exact ledger,
    assigning Asha, a PM client, to Ravi keeps the ledger consistent
    ([assignClient_preserves_ledger]; [removeAssignment_preserves_ledger]
    is its counterpart).  Reconciling Ravi's set for the AM shift then
    saves Ravi with an empty set and leaves Asha as she was: Asha has a
    staff back-reference and no staff's set contains her.  In that state
    no staff member can be assigned Asha and none can unassign her. *)
Theorem updateAssignedClients_breaks_ledger :
  ledger_exact db_unassigned ∧
  assignClient staff_ravi client_asha db_unassigned
    = Ok (mkStaff "Ravi" "AM" [client_asha]) db_assigned ∧
  ledger_consistent db_assigned ∧
  updateAssignedClients staff_ravi "AM" db_assigned = Ok 0%nat db_reconciled ∧
  ¬ ledger_consistent db_reconciled ∧
  (∃ c, clients db_reconciled !! client_asha = Some c ∧
        assignedStaff c = Some staff_ravi ∧
        ∀ sid s, staffs db_reconciled !! sid = Some s →
                 client_asha ∉ assignedClients s) ∧
  (∀ sid, ∃ status msg,
     assignClient sid client_asha db_reconciled = Err status msg) ∧
  (∀ sid, ∃ status msg,
     removeAssignment sid client_asha db_reconciled = Err status msg).
Proof.
  pose proof db_unassigned_exact as H0.
  pose proof assign_db_unassigned as H1.
  assert (∀ sid s, staffs db_reconciled !! sid = Some s →
                   client_asha ∉ assignedClients s) as Hno.
  { intros sid s Hs. simpl in Hs. unfold staffs0 in Hs.
    apply lookup_insert_Some in Hs as [[_ <-]|[_ Hs]]; [apply not_elem_of_nil|].
    apply lookup_singleton_Some in Hs as [_ <-]. apply not_elem_of_nil. }
  assert (clients db_reconciled !! client_asha = Some (asha (Some staff_ravi)))
    as Hc by apply lookup_singleton_eq.
  split_and!.
  - exact H0.
  - exact H1.
  - apply ledger_exact_consistent.
    eapply assignClient_preserves_ledger; [exact H0|exact H1].
  - apply reconcile_db_assigned.
  - intros Hcons. destruct (Hcons client_asha _ Hc) as [Hex _].
    destruct Hex as (sid & s & Hs & Hin); [by eexists|].
    by apply (Hno sid s Hs).
  - eexists. split; [exact Hc|]. done.
  - intros sid. unfold assignClient.
    destruct (staffs db_reconciled !! sid) as [s|] eqn:Hs; [|by eexists _, _].
    rewrite Hc. rewrite bool_decide_eq_false_2 by (by eapply Hno).
    by eexists _, _.
  - intros sid. unfold removeAssignment.
    destruct (staffs db_reconciled !! sid) as [s|] eqn:Hs; [|by eexists _, _].
    rewrite Hc. rewrite bool_decide_eq_false_2 by (by eapply Hno).
    by eexists _, _.
Qed.


(** * Shift sessions *)

Section Sessions.
Variable cfg : Settings.
Variable today : Z.
Implicit Types (db : DB) (sid : ObjectId) (sh : string).

(** What a successful [selectShift] has written: the session of the
    day is overwritten where it stands, or appended when there was
    none. *)
Lemma selectShift_Ok sid sh db s db' :
  selectShift cfg today sid sh db = Ok s db' →
  s = mkSession sid today sh ∧ sh ≠ "" ∧ sh ∈ setting_shifts cfg ∧
  is_Some (staffs db !! sid) ∧ staffs db' = staffs db ∧
  ((∃ l1 x l2, sessions db = l1 ++ x :: l2 ∧ session_key sid today x ∧
               filter (session_key sid today) l1 = [] ∧
               sessions db' = l1 ++ s :: l2) ∨
   (filter (session_key sid today) (sessions db) = [] ∧
    sessions db' = sessions db ++ [s])).
Proof.
  unfold selectShift. case_bool_decide as Hsh; [done|].
  destruct (staffs db !! sid) as [staff|] eqn:Hs; [|done].
  destruct (list_find _ _) as [[i x]|] eqn:Hfind; intros [= <- <-].
  - split_and!; [done|naive_solver|..|eauto|done|].
    { destruct (decide (sh ∈ setting_shifts cfg)); [done|]. naive_solver. }
    left. apply list_find_split in Hfind as (Hl & Hx & Hpre & Hlen).
    exists (take i (sessions db)), x, (drop (S i) (sessions db)).
    split_and!; [done..|]. simpl.
    rewrite Hl at 1. rewrite <- Hlen at 1. apply insert_middle.
  - split_and!; [done|naive_solver|..|eauto|done|].
    { destruct (decide (sh ∈ setting_shifts cfg)); [done|]. naive_solver. }
    right. split; [|done].
    apply list_find_None in Hfind. by apply filter_none.
Qed.

(** [selectShift] answers [Ok] for a valid shift and a known staff. *)
Lemma selectShift_succeeds sid sh db :
  sh ≠ "" → sh ∈ setting_shifts cfg → is_Some (staffs db !! sid) →
  ∃ db', selectShift cfg today sid sh db = Ok (mkSession sid today sh) db'.
Proof.
  intros Hne Hin [staff Hs]. unfold selectShift.
  rewrite bool_decide_eq_false_2 by (intros [?|?]; done). rewrite Hs.
  destruct (list_find _ _) as [[i x]|]; eauto.
Qed.

(** After [selectShift] the (staff, day) of the call has the session
    just written and no other, provided it had at most one before. *)
Lemma selectShift_sessions_for sid sh db s db' :
  (length (sessions_for sid today db) ≤ 1)%nat →
  selectShift cfg today sid sh db = Ok s db' →
  sessions_for sid today db' = [mkSession sid today sh] ∧
  (length (sessions db) ≤ length (sessions db'))%nat ∧
  (sessions_for sid today db ≠ [] → length (sessions db') = length (sessions db)).
Proof.
  intros Hone (-> & _ & _ & _ & _ & Hcase)%selectShift_Ok.
  unfold sessions_for in *.
  destruct Hcase as [(l1 & x & l2 & Hl & Hx & Hpre & ->)|[Hnone ->]].
  - rewrite Hl in Hone |- *.
    rewrite filter_app, Hpre, filter_cons_True in Hone by done.
    simpl in Hone.
    assert (filter (session_key sid today) l2 = []) as Hpost
      by (apply nil_length_inv; lia).
    rewrite filter_app, Hpre, filter_cons_True, Hpost by done.
    split_and!; [done| |]; rewrite !length_app; simpl; lia.
  - rewrite filter_app, Hnone, filter_cons_True by done.
    split_and!; [done| |done]. rewrite length_app. lia.
Qed.

(** Sessions of another staff member or another day are not touched. *)
Lemma selectShift_other_key sid sh db s db' sid' day' :
  (sid', day') ≠ (sid, today) →
  selectShift cfg today sid sh db = Ok s db' →
  sessions_for sid' day' db' = sessions_for sid' day' db.
Proof.
  intros Hne (-> & _ & _ & _ & _ & Hcase)%selectShift_Ok.
  assert (∀ y, session_key sid today y → ¬ session_key sid' day' y) as Hdisj.
  { intros y [<- <-] [<- <-]. done. }
  unfold sessions_for.
  destruct Hcase as [(l1 & x & l2 & -> & Hx & Hpre & ->)|[Hnone ->]].
  - rewrite !filter_app, !filter_cons_False; [done|by apply Hdisj..].
  - rewrite filter_app, filter_cons_False, filter_nil, app_nil_r; [done|].
    by apply Hdisj.
Qed.

(** At most one session per (staff, day) is an invariant of
    [selectShift]. *)
Lemma selectShift_preserves_one_session sid sh db :
  (∀ sid' day', (length (sessions_for sid' day' db) ≤ 1)%nat) →
  ∀ sid' day',
    (length (sessions_for sid' day'
               (db_after (selectShift cfg today sid sh db) db)) ≤ 1)%nat.
Proof.
  intros Hinv sid' day'.
  destruct (selectShift cfg today sid sh db) as [s db'|] eqn:Hsel; [|apply Hinv].
  simpl. destruct (decide ((sid', day') = (sid, today))) as [[= -> ->]|Hne].
  - apply selectShift_sessions_for in Hsel as [-> _]; [done|apply Hinv].
  - erewrite selectShift_other_key by done. apply Hinv.
Qed.

End Sessions.

(** C9.  For a known staff member with at most one session stored for
    the day, and with "AM" and "PM" among the valid shifts, selecting
    "AM" and then "PM" on the same calendar day succeeds both times and
    leaves exactly one session for that (staff, day), whose shift is
    "PM"; the second call overwrites where the first wrote, the
    collection does not grow. *)
Theorem selectShift_AM_then_PM cfg today sid db :
  "AM" ∈ setting_shifts cfg → "PM" ∈ setting_shifts cfg →
  is_Some (staffs db !! sid) →
  (length (sessions_for sid today db) ≤ 1)%nat →
  ∃ db1 db2,
    selectShift cfg today sid "AM" db = Ok (mkSession sid today "AM") db1 ∧
    selectShift cfg today sid "PM" db1 = Ok (mkSession sid today "PM") db2 ∧
    sessions_for sid today db2 = [mkSession sid today "PM"] ∧
    length (sessions db2) = length (sessions db1).
Proof.
  intros HAM HPM Hstaff Hone.
  destruct (selectShift_succeeds cfg today sid "AM" db) as [db1 H1]; [done..|].
  pose proof (selectShift_Ok _ _ _ _ _ _ _ H1) as (_ & _ & _ & _ & Hst & _).
  destruct (selectShift_succeeds cfg today sid "PM" db1) as [db2 H2];
    [done|done|by rewrite Hst|].
  exists db1, db2. split_and!; [done..| |].
  - pose proof (selectShift_sessions_for _ _ _ _ _ _ _ Hone H1) as (Hs1 & _ & _).
    eapply selectShift_sessions_for; [|exact H2]. by rewrite Hs1.
  - pose proof (selectShift_sessions_for _ _ _ _ _ _ _ Hone H1) as (Hs1 & _ & _).
    eapply selectShift_sessions_for; [|exact H2|]; by rewrite Hs1.
Qed.

(** * The unique index *)

Section UniqueKey.
Context {A K : Type} `{EqDecision K} (f : A → K).

Lemma filter_key_unique (l : list A) x :
  NoDup (f <$> l) → x ∈ l → filter (λ y, f y = f x) l = [x].
Proof.
  induction l as [|y l IH]; intros Hnd Hx; [by apply elem_of_nil in Hx|].
  rewrite fmap_cons in Hnd. apply NoDup_cons in Hnd as [Hy Hnd].
  apply elem_of_cons in Hx as [->|Hx].
  - rewrite filter_cons_True by done. f_equal.
    apply filter_none, Forall_forall. intros z Hz Heq.
    apply Hy. rewrite <- Heq. by apply list_elem_of_fmap_2.
  - rewrite filter_cons_False; [by apply IH|].
    intros Heq. apply Hy. rewrite Heq. by apply list_elem_of_fmap_2.
Qed.

Lemma filter_key_at_most_one (l : list A) k :
  NoDup (f <$> l) → (length (filter (λ y, f y = k) l) ≤ 1)%nat.
Proof.
  intros Hnd. remember (filter (λ y, f y = k) l) as fl eqn:Hf.
  symmetry in Hf. destruct fl as [|x l']; [simpl; lia|].
  assert (x ∈ filter (λ y, f y = k) l) as Hx by (rewrite Hf; left).
  destruct (proj1 (list_elem_of_filter _ _ _) Hx) as [Hk Hx']. subst k.
  rewrite (filter_key_unique l x Hnd Hx') in Hf. injection Hf as <-. simpl. lia.
Qed.

Lemma NoDup_key_replace (l1 l2 : list A) x y :
  NoDup (f <$> l1 ++ x :: l2) → f y ∉ f <$> l1 ++ l2 →
  NoDup (f <$> l1 ++ y :: l2).
Proof.
  rewrite <- !Permutation_middle, !fmap_cons, !NoDup_cons.
  intros [_ Hnd] Hy. by split.
Qed.

Lemma NoDup_key_append (l : list A) y :
  NoDup (f <$> l) → f y ∉ f <$> l → NoDup (f <$> l ++ [y]).
Proof.
  intros Hnd Hy.
  rewrite <- Permutation_cons_append, fmap_cons, NoDup_cons. done.
Qed.

End UniqueKey.

Section FindOneAndUpdate.
Context (P : DailyDeliveryDoc → Prop) `{!∀ r, Decision (P r)}.
Variables (upd : DailyDeliveryDoc → DailyDeliveryDoc) (fresh : DailyDeliveryDoc).
Implicit Types coll : list DailyDeliveryDoc.

(** A successful upsert rewrote the first document that answers the
    query where it stands, or appended [fresh] when none answers. *)
Lemma findOneAndUpdate_Some coll r' coll' :
  findOneAndUpdate P upd fresh coll = Some (r', coll') →
  (∃ l1 x l2, coll = l1 ++ x :: l2 ∧ P x ∧ filter P l1 = [] ∧
              r' = upd x ∧ coll' = l1 ++ r' :: l2 ∧
              index_key r' ∉ index_key <$> l1 ++ l2) ∨
  (filter P coll = [] ∧ r' = fresh ∧ coll' = coll ++ [fresh] ∧
   index_key fresh ∉ index_key <$> coll).
Proof.
  unfold findOneAndUpdate.
  destruct (list_find P coll) as [[i x]|] eqn:Hfind.
  - case_bool_decide as Hdup; [done|]. intros [= <- <-]. left.
    apply list_find_split in Hfind as (Hl & Hx & Hpre & Hlen).
    exists (take i coll), x, (drop (S i) coll).
    split_and!; [done..| |].
    + rewrite Hl at 1. rewrite <- Hlen at 1. apply insert_middle.
    + rewrite Hl in Hdup. rewrite <- Hlen in Hdup at 1.
      by rewrite delete_middle in Hdup.
  - case_bool_decide as Hdup; [done|]. intros [= <- <-]. right.
    apply list_find_None in Hfind. split_and!; [|done..].
    by apply filter_none.
Qed.

(** The upsert fails exactly on a duplicate key. *)
Lemma findOneAndUpdate_None coll :
  findOneAndUpdate P upd fresh coll = None →
  (∃ l1 x l2, coll = l1 ++ x :: l2 ∧ P x ∧ filter P l1 = [] ∧
              index_key (upd x) ∈ index_key <$> l1 ++ l2) ∨
  (filter P coll = [] ∧ index_key fresh ∈ index_key <$> coll).
Proof.
  unfold findOneAndUpdate.
  destruct (list_find P coll) as [[i x]|] eqn:Hfind.
  - case_bool_decide as Hdup; [|done]. intros _. left.
    apply list_find_split in Hfind as (Hl & Hx & Hpre & Hlen).
    exists (take i coll), x, (drop (S i) coll).
    split_and!; [done..|].
    rewrite Hl in Hdup. rewrite <- Hlen in Hdup at 1.
    by rewrite delete_middle in Hdup.
  - case_bool_decide as Hdup; [|done]. intros _. right.
    apply list_find_None in Hfind. split; [|done]. by apply filter_none.
Qed.

Lemma findOneAndUpdate_unique coll r' coll' :
  NoDup (index_key <$> coll) →
  findOneAndUpdate P upd fresh coll = Some (r', coll') →
  NoDup (index_key <$> coll') ∧ r' ∈ coll'.
Proof.
  intros Hnd [(l1 & x & l2 & -> & _ & _ & _ & -> & Hk)|(_ & -> & -> & Hk)]%findOneAndUpdate_Some.
  - split; [by eapply NoDup_key_replace|]. set_solver.
  - split; [by apply NoDup_key_append|]. set_solver.
Qed.

(** A stored document that the query does not answer and that holds
    the key the upsert writes makes the upsert fail. *)
Lemma findOneAndUpdate_collides coll r :
  r ∈ coll → ¬ P r →
  (∀ x, index_key (upd x) = index_key r) → index_key fresh = index_key r →
  findOneAndUpdate P upd fresh coll = None.
Proof.
  intros Hr HnP Hupd Hfresh.
  destruct (findOneAndUpdate P upd fresh coll) as [[r' coll']|] eqn:Hfou; [|done].
  exfalso.
  apply findOneAndUpdate_Some in Hfou
    as [(l1 & x & l2 & -> & Hx & _ & -> & _ & Hk)|(_ & -> & _ & Hk)].
  - apply Hk. rewrite Hupd. apply list_elem_of_fmap_2.
    apply elem_of_app in Hr as [Hr|Hr]; [set_solver|].
    apply elem_of_cons in Hr as [->|Hr]; [done|set_solver].
  - apply Hk. rewrite Hfresh. by apply list_elem_of_fmap_2.
Qed.

End FindOneAndUpdate.

(** * Delivery recorder *)

Lemma status_setting_id cfg name : status_setting cfg name = name.
Proof.
  unfold status_setting.
  destruct (List.find _ _) as [s|] eqn:Hfind; [|done].
  apply find_some in Hfind as [_ Heq]. symmetry. by apply String.eqb_eq.
Qed.

Section Recorder.
Variable cfg : Settings.
Variable today : Z.
Implicit Types (db : DB) (sid cid : ObjectId) (sh : string).

Lemma markClientDailyDelivered_Ok sid cid sh db r db' :
  markClientDailyDelivered cfg today sid cid sh db = Ok r db' →
  ∃ staff client coll',
    sh ≠ "" ∧ staffs db !! sid = Some staff ∧ clients db !! cid = Some client ∧
    cid ∈ assignedClients staff ∧
    findOneAndUpdate (daily_query cid sid today)
      (λ x, delivered_doc today sid cid sh client (notes x))
      (delivered_doc today sid cid sh client None) (deliveries db) = Some (r, coll') ∧
    db' = set_clients
            (<[cid := mirror_client "Delivered" (deliveryNotes client)
                        (mkHistoryEntry today "Delivered" (c_quantity client) None)
                        client]> (clients db))
            (set_deliveries coll' db).
Proof.
  unfold markClientDailyDelivered. rewrite status_setting_id.
  case_bool_decide as Hsh; [done|].
  destruct (staffs db !! sid) as [staff|] eqn:Hs; [|done].
  destruct (clients db !! cid) as [client|] eqn:Hc; [|done].
  case_bool_decide as Hin; [|done].
  destruct (findOneAndUpdate _ _ _ _) as [[r0 coll']|] eqn:Hfou; [|done].
  intros [= <- <-]. exists staff, client, coll'. done.
Qed.

Lemma markClientDailyUndelivered_Ok sid cid reason sh db r db' :
  markClientDailyUndelivered cfg today sid cid reason sh db = Ok r db' →
  ∃ staff client coll',
    sh ≠ "" ∧ reason ≠ "" ∧
    staffs db !! sid = Some staff ∧ clients db !! cid = Some client ∧
    cid ∈ assignedClients staff ∧
    findOneAndUpdate (daily_query cid sid today)
      (λ x, not_delivered_doc today sid cid sh reason)
      (not_delivered_doc today sid cid sh reason) (deliveries db) = Some (r, coll') ∧
    db' = set_clients
            (<[cid := mirror_client "Not Delivered" (Some reason)
                        (mkHistoryEntry today "Not Delivered" 0%float (Some reason))
                        client]> (clients db))
            (set_deliveries coll' db).
Proof.
  unfold markClientDailyUndelivered. rewrite status_setting_id.
  case_bool_decide as Hsh; [done|].
  case_bool_decide as Hreason; [done|].
  destruct (staffs db !! sid) as [staff|] eqn:Hs; [|done].
  destruct (clients db !! cid) as [client|] eqn:Hc; [|done].
  case_bool_decide as Hin; [|done].
  destruct (findOneAndUpdate _ _ _ _) as [[r0 coll']|] eqn:Hfou; [|done].
  intros [= <- <-]. exists staff, client, coll'. done.
Qed.

(** Both handlers answer 500 when the upsert fails, whatever the
    failure. *)
Lemma markClientDailyDelivered_dup sid cid sh db staff client :
  sh ≠ "" → staffs db !! sid = Some staff → clients db !! cid = Some client →
  cid ∈ assignedClients staff →
  findOneAndUpdate (daily_query cid sid today)
    (λ x, delivered_doc today sid cid sh client (notes x))
    (delivered_doc today sid cid sh client None) (deliveries db) = None →
  markClientDailyDelivered cfg today sid cid sh db
  = Err 500 "Error updating delivery status".
Proof.
  intros Hsh Hs Hc Hin Hfou. unfold markClientDailyDelivered.
  rewrite bool_decide_eq_false_2 by done. rewrite Hs, Hc.
  rewrite bool_decide_eq_true_2 by done.
  by rewrite Hfou.
Qed.

Lemma markClientDailyUndelivered_dup sid cid reason sh db staff client :
  sh ≠ "" → reason ≠ "" →
  staffs db !! sid = Some staff → clients db !! cid = Some client →
  cid ∈ assignedClients staff →
  findOneAndUpdate (daily_query cid sid today)
    (λ x, not_delivered_doc today sid cid sh reason)
    (not_delivered_doc today sid cid sh reason) (deliveries db) = None →
  markClientDailyUndelivered cfg today sid cid reason sh db
  = Err 500 "Error updating delivery status".
Proof.
  intros Hsh Hreason Hs Hc Hin Hfou. unfold markClientDailyUndelivered.
  rewrite !bool_decide_eq_false_2 by done. rewrite Hs, Hc.
  rewrite bool_decide_eq_true_2 by done.
  by rewrite Hfou.
Qed.

(** The unique index holds after either handler, whatever it answers. *)
Lemma markClientDailyDelivered_unique_index sid cid sh db :
  unique_index db →
  unique_index (db_after (markClientDailyDelivered cfg today sid cid sh db) db).
Proof.
  intros Hu.
  destruct (markClientDailyDelivered cfg today sid cid sh db) as [r db'|] eqn:Hm;
    [|done].
  apply markClientDailyDelivered_Ok in Hm
    as (staff & client & coll' & _ & _ & _ & _ & Hfou & ->).
  unfold unique_index. simpl. by eapply findOneAndUpdate_unique.
Qed.

Lemma markClientDailyUndelivered_unique_index sid cid reason sh db :
  unique_index db →
  unique_index
    (db_after (markClientDailyUndelivered cfg today sid cid reason sh db) db).
Proof.
  intros Hu.
  destruct (markClientDailyUndelivered cfg today sid cid reason sh db)
    as [r db'|] eqn:Hm; [|done].
  apply markClientDailyUndelivered_Ok in Hm
    as (staff & client & coll' & _ & _ & _ & _ & _ & Hfou & ->).
  unfold unique_index. simpl. by eapply findOneAndUpdate_unique.
Qed.

(** Under the unique index no (client, day, shift) has two records. *)
Lemma unique_index_at_most_one db cid day sh :
  unique_index db → (length (records_for cid day sh db) ≤ 1)%nat.
Proof. apply filter_key_at_most_one. Qed.

End Recorder.

Section FindFirst.
Context (P : DailyDeliveryDoc → Prop) `{!∀ r, Decision (P r)}.
Variables (upd : DailyDeliveryDoc → DailyDeliveryDoc) (fresh : DailyDeliveryDoc).

Lemma list_find_first (l1 l2 : list DailyDeliveryDoc) x :
  filter P l1 = [] → P x → list_find P (l1 ++ x :: l2) = Some (length l1, x).
Proof.
  intros Hpre Hx. apply list_find_Some. split_and!.
  - by apply list_lookup_middle.
  - done.
  - intros j y Hj Hlt. rewrite lookup_app_l in Hj by done.
    apply filter_nil_none in Hpre. rewrite Forall_forall in Hpre.
    apply Hpre. by eapply list_elem_of_lookup_2.
Qed.

Lemma findOneAndUpdate_first (l1 l2 : list DailyDeliveryDoc) x :
  filter P l1 = [] → P x → index_key (upd x) ∉ index_key <$> l1 ++ l2 →
  findOneAndUpdate P upd fresh (l1 ++ x :: l2)
  = Some (upd x, l1 ++ upd x :: l2).
Proof.
  intros Hpre Hx Hk. unfold findOneAndUpdate.
  rewrite list_find_first by done.
  rewrite delete_middle, bool_decide_eq_false_2 by done.
  by rewrite insert_middle.
Qed.

End FindFirst.

Section Idempotence.
Variable cfg : Settings.
Variable today : Z.
Variables (sid0 cid : ObjectId) (sh : string).

Lemma daily_query_today r client n :
  r = delivered_doc today sid0 cid sh client n → daily_query cid sid0 today r.
Proof. intros ->. unfold daily_query, day_ms. simpl. split_and!; [done..|lia|lia]. Qed.

(** The first successful call establishes [recorded]. *)
Lemma first_call_recorded db r0 db0 :
  unique_index db →
  markClientDailyDelivered cfg today sid0 cid sh db = Ok r0 db0 →
  recorded today sid0 cid sh r0 (deliveries db0) db0.
Proof.
  intros Hu Hm. apply markClientDailyDelivered_Ok in Hm
    as (staff & client & coll' & Hsh & Hs & Hc & Hin & Hfou & ->).
  split_and!; [done| |done|by exists staff|].
  - simpl. apply findOneAndUpdate_Some in Hfou
      as [(l1 & x & l2 & Hl & Hx & Hpre & -> & -> & Hk)|(Hnone & -> & -> & Hk)].
    + by exists l1, l2.
    + exists (deliveries db), []. by rewrite app_nil_r.
  - simpl. rewrite lookup_insert_eq. eexists; split; [done|].
    apply findOneAndUpdate_Some in Hfou
      as [(l1 & x & l2 & Hl & Hx & Hpre & -> & -> & Hk)|(Hnone & -> & -> & Hk)];
      done.
Qed.

(** Any later call for the same client, day and shift, by whichever
    staff member, leaves the collection as it is. *)
Lemma later_call_recorded r0 coll db sid :
  recorded today sid0 cid sh r0 coll db →
  recorded today sid0 cid sh r0 coll (db_after (markClientDailyDelivered cfg today sid cid sh db) db).
Proof.
  intros Hrec.
  destruct (markClientDailyDelivered cfg today sid cid sh db) as [r db'|] eqn:Hm;
    [|done].
  destruct Hrec as (Hcoll & (l1 & l2 & Hl & Hpre & Hk) & Hsh & (staff0' & Hs0 & Hin0)
                    & (client & Hc & Hr0)).
  apply markClientDailyDelivered_Ok in Hm
    as (staff & client' & coll' & _ & Hs & Hc' & Hin & Hfou & ->).
  assert (client' = client) as -> by congruence.
  assert (index_key r0 = (cid, today, sh)) as Hkey0 by (by rewrite Hr0).
  assert (r0 ∈ deliveries db) as Hr0in by (rewrite Hcoll, Hl; set_solver).
  assert (coll' = coll ∧ r = r0) as [-> ->].
  { apply findOneAndUpdate_Some in Hfou
      as [(m1 & x & m2 & Hm12 & Hx & Hmpre & -> & -> & Hmk)|(_ & -> & _ & Hmk)].
    - assert (x = r0) as ->.
      { rewrite Hm12 in Hr0in.
        apply elem_of_app in Hr0in as [Hin1|Hin1].
        - exfalso. apply Hmk. change (index_key (delivered_doc _ _ _ _ _ _))
            with (cid, today, sh). rewrite <- Hkey0.
          apply list_elem_of_fmap_2. set_solver.
        - apply elem_of_cons in Hin1 as [->|Hin1]; [done|].
          exfalso. apply Hmk. change (index_key (delivered_doc _ _ _ _ _ _))
            with (cid, today, sh). rewrite <- Hkey0.
          apply list_elem_of_fmap_2. set_solver. }
      destruct Hx as (_ & Hsid & _).
      assert (sid = sid0) as -> by (rewrite Hr0 in Hsid; done).
      rewrite <- Hr0. by rewrite <- Hm12, Hcoll.
    - exfalso. apply Hmk. change (index_key (delivered_doc _ _ _ _ _ _))
        with (cid, today, sh). rewrite <- Hkey0. by apply list_elem_of_fmap_2. }
  split_and!; [done|by exists l1, l2|done|by exists staff0'|].
  simpl. rewrite lookup_insert_eq. eexists; split; [done|]. by rewrite Hr0 at 1.
Qed.

(** A repeated call by the same staff member succeeds and answers with
    the stored record. *)
Lemma same_staff_call_succeeds r0 coll db :
  recorded today sid0 cid sh r0 coll db →
  ∃ db', markClientDailyDelivered cfg today sid0 cid sh db = Ok r0 db' ∧
         deliveries db' = coll.
Proof.
  intros (Hcoll & (l1 & l2 & Hl & Hpre & Hk) & Hsh & (staff & Hs & Hin)
          & (client & Hc & Hr0)).
  unfold markClientDailyDelivered.
  rewrite bool_decide_eq_false_2 by done. rewrite Hs, Hc.
  rewrite bool_decide_eq_true_2 by done.
  rewrite Hcoll, Hl.
  rewrite findOneAndUpdate_first;
    [|done|by eapply daily_query_today|by rewrite <- Hr0].
  rewrite <- Hr0.
  eexists. split; [done|]. simpl. done.
Qed.

Lemma repeat_delivered_recorded r0 coll ids db :
  recorded today sid0 cid sh r0 coll db →
  recorded today sid0 cid sh r0 coll (repeat_delivered cfg today cid sh ids db).
Proof.
  revert db. induction ids as [|sid ids IH]; intros db Hrec; [done|].
  simpl. apply IH. by apply later_call_recorded.
Qed.

End Idempotence.

(** C2.  Under the unique index, once a call of
    [markClientDailyDelivered] for a client, day and shift has
    succeeded, any number of further calls for the same client, day and
    shift, by whichever staff members, leave every (client, day, shift)
    with at most one record and this one with exactly one, the record
    the first call answered; the collection itself is unchanged, no
    record is added.  A further call by the same staff member succeeds
    and answers with that same record. *)
Theorem recordDelivered_idempotent cfg today sid0 cid sh db r0 db0 ids :
  unique_index db →
  markClientDailyDelivered cfg today sid0 cid sh db = Ok r0 db0 →
  let dbn := repeat_delivered cfg today cid sh ids db0 in
  (∀ c d s, (length (records_for c d s dbn) ≤ 1)%nat) ∧
  records_for cid today sh dbn = [r0] ∧
  deliveries dbn = deliveries db0 ∧
  ∃ db', markClientDailyDelivered cfg today sid0 cid sh dbn = Ok r0 db' ∧
         deliveries db' = deliveries db0.
Proof.
  intros Hu Hm dbn.
  pose proof (markClientDailyDelivered_unique_index cfg today sid0 cid sh db Hu) as Hu0.
  rewrite Hm in Hu0. simpl in Hu0.
  pose proof (first_call_recorded cfg today sid0 cid sh db r0 db0 Hu Hm) as Hrec0.
  pose proof (repeat_delivered_recorded cfg today sid0 cid sh r0 _ ids db0 Hrec0) as Hrec.
  fold dbn in Hrec.
  assert (deliveries dbn = deliveries db0) as Hsame by apply Hrec.
  assert (unique_index dbn) as Hun by (unfold unique_index; by rewrite Hsame).
  split_and!.
  - intros c d s. by apply unique_index_at_most_one.
  - destruct Hrec as (_ & (l1 & l2 & Hl & _ & _) & _ & _ & (client & _ & Hr0)).
    assert (index_key r0 = (cid, today, sh)) as Hkey by (by rewrite Hr0).
    unfold records_for. rewrite <- Hkey.
    apply (filter_key_unique index_key); [done|].
    rewrite Hsame, Hl. set_solver.
  - done.
  - by eapply same_staff_call_succeeds.
Qed.

Section RecorderOutcome.
Variable cfg : Settings.
Variable today : Z.
Implicit Types (db : DB) (sid cid : ObjectId) (sh : string).

(** [markClientDailyDelivered] succeeds for an assigned client with no
    record yet on that day. *)
Lemma markClientDailyDelivered_succeeds sid cid sh db staff client :
  sh ≠ "" → staffs db !! sid = Some staff → clients db !! cid = Some client →
  cid ∈ assignedClients staff →
  Forall (λ r, clientId r ≠ cid) (deliveries db) →
  ∃ db', markClientDailyDelivered cfg today sid cid sh db
         = Ok (delivered_doc today sid cid sh client None) db'.
Proof.
  intros Hsh Hs Hc Hin Hnone. unfold markClientDailyDelivered.
  rewrite bool_decide_eq_false_2 by done. rewrite Hs, Hc.
  rewrite bool_decide_eq_true_2 by done.
  unfold findOneAndUpdate.
  assert (list_find (daily_query cid sid today) (deliveries db) = None) as ->.
  { apply list_find_None. eapply Forall_impl; [exact Hnone|].
    intros r Hr [Hq _]. done. }
  rewrite bool_decide_eq_false_2; [by eexists|].
  intros (r & Hk & Hr)%list_elem_of_fmap_1.
  rewrite Forall_forall in Hnone. apply (Hnone r Hr).
  by injection Hk as <- _ _.
Qed.

(** The upsert writes a schema-valid status. *)
Lemma markClientDailyDelivered_schema_valid sid cid sh db :
  schema_valid db →
  schema_valid (db_after (markClientDailyDelivered cfg today sid cid sh db) db).
Proof.
  intros Hv.
  destruct (markClientDailyDelivered cfg today sid cid sh db) as [r db'|] eqn:Hm;
    [|done].
  apply markClientDailyDelivered_Ok in Hm
    as (staff & client & coll' & _ & _ & _ & _ & Hfou & ->).
  unfold schema_valid in *. simpl.
  apply findOneAndUpdate_Some in Hfou
    as [(l1 & x & l2 & Hl & _ & _ & -> & -> & _)|(_ & -> & -> & _)].
  - rewrite Hl in Hv. apply Forall_app in Hv as [H1 H2].
    apply Forall_cons in H2 as [_ H2].
    apply Forall_app; split; [done|]. apply Forall_cons; split; [by left|done].
  - apply Forall_app; split; [done|]. apply Forall_cons; split; [by left|done].
Qed.

Lemma markClientDailyUndelivered_schema_valid sid cid reason sh db :
  schema_valid db →
  schema_valid
    (db_after (markClientDailyUndelivered cfg today sid cid reason sh db) db).
Proof.
  intros Hv.
  destruct (markClientDailyUndelivered cfg today sid cid reason sh db)
    as [r db'|] eqn:Hm; [|done].
  apply markClientDailyUndelivered_Ok in Hm
    as (staff & client & coll' & _ & _ & _ & _ & _ & Hfou & ->).
  unfold schema_valid in *. simpl.
  apply findOneAndUpdate_Some in Hfou
    as [(l1 & x & l2 & Hl & _ & _ & -> & -> & _)|(_ & -> & -> & _)].
  - rewrite Hl in Hv. apply Forall_app in Hv as [H1 H2].
    apply Forall_cons in H2 as [_ H2].
    apply Forall_app; split; [done|]. apply Forall_cons; split; [by right|done].
  - apply Forall_app; split; [done|]. apply Forall_cons; split; [by right|done].
Qed.

End RecorderOutcome.



(** C10.  The query of the upsert asks for the acting staff member, so a
    record of the same (client, today, shift) written by another staff
    member does not answer it; the upsert then writes a document with
    the key of that record, the unique index rejects it, and both
    handlers answer 500: the stored record is not updated. *)
Theorem second_staff_collides cfg today sid1 sid2 cid sh reason db r staff2 client :
  r ∈ deliveries db → index_key r = (cid, today, sh) →
  staffId r = sid1 → sid1 ≠ sid2 →
  staffs db !! sid2 = Some staff2 → cid ∈ assignedClients staff2 →
  clients db !! cid = Some client → sh ≠ "" → reason ≠ "" →
  ¬ daily_query cid sid2 today r ∧
  findOneAndUpdate (daily_query cid sid2 today)
    (λ x, delivered_doc today sid2 cid sh client (notes x))
    (delivered_doc today sid2 cid sh client None) (deliveries db) = None ∧
  markClientDailyDelivered cfg today sid2 cid sh db
  = Err 500 "Error updating delivery status" ∧
  findOneAndUpdate (daily_query cid sid2 today)
    (λ x, not_delivered_doc today sid2 cid sh reason)
    (not_delivered_doc today sid2 cid sh reason) (deliveries db) = None ∧
  markClientDailyUndelivered cfg today sid2 cid reason sh db
  = Err 500 "Error updating delivery status".
Proof.
  intros Hr Hkey Hsid Hne Hs Hin Hc Hsh Hreason.
  assert (¬ daily_query cid sid2 today r) as Hnq.
  { intros (_ & Hsid2 & _). congruence. }
  assert (findOneAndUpdate (daily_query cid sid2 today)
            (λ x, delivered_doc today sid2 cid sh client (notes x))
            (delivered_doc today sid2 cid sh client None) (deliveries db) = None) as H1.
  { eapply findOneAndUpdate_collides; [exact Hr|exact Hnq|..]; by rewrite Hkey. }
  assert (findOneAndUpdate (daily_query cid sid2 today)
            (λ x, not_delivered_doc today sid2 cid sh reason)
            (not_delivered_doc today sid2 cid sh reason) (deliveries db) = None) as H2.
  { eapply findOneAndUpdate_collides; [exact Hr|exact Hnq|..]; by rewrite Hkey. }
  split_and!; [done|done| |done|].
  - by eapply markClientDailyDelivered_dup.
  - by eapply markClientDailyUndelivered_dup.
Qed.

(** * Aggregation engine *)

Section Sorting.
Context {A : Type} (leb : A → A → bool).

Lemma sort_insert_Forall (Q : A → Prop) x l :
  Q x → Forall Q l → Forall Q (sort_insert leb x l).
Proof.
  intros Hx. induction 1 as [|y l Hy Hl IH]; simpl.
  - by apply Forall_singleton.
  - destruct (leb x y); repeat (apply Forall_cons; split); done.
Qed.

Lemma sort_by_Forall (Q : A → Prop) l : Forall Q l → Forall Q (sort_by leb l).
Proof.
  induction 1 as [|y l Hy Hl IH]; simpl; [done|].
  by apply sort_insert_Forall.
Qed.

Hypothesis leb_total : ∀ x y, leb x y = true ∨ leb y x = true.

Lemma sort_insert_ascending x l :
  ascending leb l → ascending leb (sort_insert leb x l).
Proof.
  induction l as [|y l IH]; intros Hl; [done|].
  simpl. destruct (leb x y) eqn:Hxy; [done|].
  destruct Hl as [Hy Hl]. split; [|by apply IH].
  destruct l as [|z l]; simpl.
  - destruct (leb_total x y); congruence.
  - destruct (leb x z); [|done].
    destruct (leb_total x y); congruence.
Qed.

(** [sort_by] answers an ascending list for any total [leb]. *)
Lemma sort_by_ascending l : ascending leb (sort_by leb l).
Proof.
  induction l as [|x l IH]; [done|].
  by apply sort_insert_ascending.
Qed.

End Sorting.

Lemma schema_status_not_delivered_lc s : schema_status s → s ≠ "delivered".
Proof. by intros [-> | ->]. Qed.

Lemma schema_status_not_not_delivered_lc s : schema_status s → s ≠ "not_delivered".
Proof. by intros [-> | ->]. Qed.

Lemma trend_group_add_zero k r groups :
  schema_status (deliveryStatus r) →
  Forall (λ g, g_successfulDeliveries g = 0%nat) groups →
  Forall (λ g, g_successfulDeliveries g = 0%nat) (trend_group_add k r groups).
Proof.
  intros Hr%schema_status_not_delivered_lc.
  assert (cond_status "delivered" r = 0%nat) as Hc
    by (unfold cond_status; by rewrite bool_decide_eq_false_2).
  induction 1 as [|g gs Hg Hgs IH]; simpl.
  - apply Forall_singleton. simpl. by rewrite Hc.
  - destruct (decide (g_id g = k)).
    + apply Forall_cons; split; [|done]. simpl. rewrite Hg, Hc. done.
    + apply Forall_cons; split; done.
Qed.

Lemma trend_group_stage_zero p docs :
  Forall (λ r, schema_status (deliveryStatus r)) docs →
  Forall (λ g, g_successfulDeliveries g = 0%nat) (trend_group_stage p docs).
Proof.
  unfold trend_group_stage.
  assert (Forall (λ g, g_successfulDeliveries g = 0%nat) []) as Hacc by done.
  revert Hacc. generalize (@nil TrendGroup) as acc.
  induction docs as [|r docs IH]; intros acc Hacc Hdocs; [done|].
  apply Forall_cons in Hdocs as [Hr Hdocs]. simpl.
  apply IH; [|done]. by apply trend_group_add_zero.
Qed.

(** On a collection that respects the schema, no trend bucket counts a
    successful delivery. *)
Lemma getDeliveryTrends_successful_zero p startDate endDate db :
  schema_valid db →
  Forall (λ b, successfulDeliveries b = 0%nat)
         (getDeliveryTrends p startDate endDate db).
Proof.
  intros Hv. unfold getDeliveryTrends. apply sort_by_Forall.
  apply Forall_fmap.
  eapply Forall_impl; [apply trend_group_stage_zero|done].
  unfold schema_valid in Hv. rewrite Forall_forall in Hv |- *.
  intros r Hr%list_elem_of_filter. apply Hv, Hr.
Qed.

(** On a collection that respects the schema, the tally of non-delivery
    reasons is empty. *)
Lemma getNonDeliveryReasons_empty startDate endDate db :
  schema_valid db → getNonDeliveryReasons startDate endDate db = [].
Proof.
  intros Hv. unfold getNonDeliveryReasons.
  rewrite filter_none; [done|].
  unfold schema_valid in Hv. eapply Forall_impl; [exact Hv|].
  intros r Hr (_ & Hst & _). by apply schema_status_not_not_delivered_lc in Hr.
Qed.

Lemma key_leb_total a b : key_leb a b = true ∨ key_leb b a = true.
Proof.
  destruct a as [x|x|y1 m1], b as [y|y|y2 m2]; simpl; auto.
  - apply String.leb_total.
  - destruct (Z.leb_spec x y); [by left|right]. apply Z.leb_le. lia.
  - destruct (Z.ltb_spec y1 y2); [by left|].
    destruct (Z.ltb_spec y2 y1); [by right|].
    assert (y1 = y2) as -> by lia. rewrite Z.eqb_refl. simpl.
    destruct (Z.leb_spec m1 m2); [by left|right]. apply Z.leb_le. lia.
Qed.

(** The buckets of [getDeliveryTrends] come in ascending order of their
    key. *)
Lemma getDeliveryTrends_ascending p startDate endDate db :
  ascending (λ a b, key_leb (period a) (period b))
            (getDeliveryTrends p startDate endDate db).
Proof.
  apply sort_by_ascending. intros x y. apply key_leb_total.
Qed.

(** The tally of [getNonDeliveryReasons] comes in descending order of
    count. *)
Lemma getNonDeliveryReasons_descending startDate endDate db :
  ascending (λ a b, (count b <=? count a)%nat)
            (getNonDeliveryReasons startDate endDate db).
Proof.
  apply sort_by_ascending. intros x y.
  destruct (Nat.leb_spec (count y) (count x)); [by left|right].
  apply Nat.leb_le. lia.
Qed.

(** C5.  [getDeliverySuccessRate] counts the records of the range and
    those among them with status Delivered; with a positive total the
    rate is delivered / total * 100 in floating point, with a total of
    zero it is the number 0, not NaN. *)
Theorem getDeliverySuccessRate_spec startDate endDate db :
  let res := getDeliverySuccessRate startDate endDate db in
  sr_total res = length (filter (in_range startDate endDate) (deliveries db)) ∧
  sr_delivered res
  = length (filter (λ r, in_range startDate endDate r ∧ deliveryStatus r = "Delivered")
              (deliveries db)) ∧
  ((0 < sr_total res)%nat →
   sr_successRate res
   = PrimFloat.mul
       (PrimFloat.div (number_of_nat (sr_delivered res))
                      (number_of_nat (sr_total res)))
       100%float) ∧
  (sr_total res = 0%nat →
   sr_successRate res = 0%float ∧ PrimFloat.is_nan (sr_successRate res) = false).
Proof.
  intros res. subst res. unfold getDeliverySuccessRate, countDocuments. simpl.
  split_and!; [done|done| |].
  - intros Hpos. by rewrite bool_decide_eq_true_2.
  - intros Hzero. rewrite bool_decide_eq_false_2 by lia. done.
Qed.

(** * The dairy, step by step

    Each database of the example is what the handlers make of the one
    before it. *)

Lemma deliver_db_assigned :
  markClientDailyDelivered cfg0 day0 staff_ravi client_asha "PM" db_assigned
  = Ok ravi_delivered db_delivered.
Proof. reflexivity. Qed.

Lemma not_deliver_db_assigned :
  markClientDailyUndelivered cfg0 day0 staff_ravi client_asha "gate locked" "PM"
    db_assigned
  = Ok ravi_not_delivered db_not_delivered.
Proof. reflexivity. Qed.

Lemma release_db_delivered :
  removeAssignment staff_ravi client_asha db_delivered
  = Ok (mkStaff "Ravi" "AM" []) db_released.
Proof. reflexivity. Qed.

Lemma reassign_db_released :
  assignClient staff_meena client_asha db_released
  = Ok (mkStaff "Meena" "PM" [client_asha]) db_reassigned.
Proof. reflexivity. Qed.

(** The query of the upsert does not ask for the shift: when Ravi, who
    recorded Asha's PM delivery, records an AM delivery to her on the
    same day, the PM record is rewritten into the AM record. *)
Lemma same_staff_other_shift_rewrites :
  ∃ db',
    markClientDailyDelivered cfg0 day0 staff_ravi client_asha "AM" db_delivered
    = Ok (mkDelivery client_asha staff_ravi day0 "AM" "Delivered"
            5%float 50%float None) db' ∧
    records_for client_asha day0 "PM" db' = [] ∧
    length (deliveries db') = 1%nat.
Proof. eexists. split_and!; reflexivity. Qed.

(** C3, at a record the recorder itself wrote.  Ravi's delivery to Asha
    is stored with status Delivered and lies in the range, yet the
    bucket of its day, of its week and of its month reports no
    successful delivery and a success rate of 0: the group stage
    compares the status with "delivered", which the schema never
    stores.  The delivery count, the summed quantity and the summed
    revenue of the bucket are those of the record. *)
Theorem getDeliveryTrends_misses_delivered :
  markClientDailyDelivered cfg0 day0 staff_ravi client_asha "PM" db_assigned
  = Ok ravi_delivered db_delivered ∧
  filter (λ r, in_range day0 (day0 + day_ms - 1) r ∧ deliveryStatus r = "Delivered")
    (deliveries db_delivered) = [ravi_delivered] ∧
  getDeliveryTrends "daily" day0 (day0 + day_ms - 1) db_delivered
  = [mkTrendBucket (DayKey "2024-03-10") 1 0 0%float 5%float 50%float] ∧
  getDeliveryTrends "weekly" day0 (day0 + day_ms - 1) db_delivered
  = [mkTrendBucket (WeekKey 10) 1 0 0%float 5%float 50%float] ∧
  getDeliveryTrends "monthly" day0 (day0 + day_ms - 1) db_delivered
  = [mkTrendBucket (MonthKey 2024 3) 1 0 0%float 5%float 50%float].
Proof. split_and!; reflexivity. Qed.

(** C4, at a record the recorder itself wrote.  Ravi's failed delivery
    is stored with status Not Delivered and the note "gate locked" and
    lies in the range, yet the tally is empty: the match stage asks for
    the status "not_delivered", which the schema never stores. *)
Theorem getNonDeliveryReasons_misses_not_delivered :
  markClientDailyUndelivered cfg0 day0 staff_ravi client_asha "gate locked" "PM"
    db_assigned
  = Ok ravi_not_delivered db_not_delivered ∧
  filter (not_delivered_with_note day0 (day0 + day_ms - 1))
    (deliveries db_not_delivered) = [ravi_not_delivered] ∧
  getNonDeliveryReasons day0 (day0 + day_ms - 1) db_not_delivered = [].
Proof. split_and!; reflexivity. Qed.


Lemma selectShift_AM_then_PM_witness :
  ∃ db1 db2,
    selectShift cfg0 day0 staff_ravi "AM" db_assigned
    = Ok (mkSession staff_ravi day0 "AM") db1 ∧
    selectShift cfg0 day0 staff_ravi "PM" db1
    = Ok (mkSession staff_ravi day0 "PM") db2 ∧
    sessions_for staff_ravi day0 db2 = [mkSession staff_ravi day0 "PM"] ∧
    length (sessions db2) = length (sessions db1).
Proof.
  apply (selectShift_AM_then_PM cfg0 day0 staff_ravi db_assigned).
  - simpl. apply list_elem_of_here.
  - simpl. apply list_elem_of_further, list_elem_of_here.
  - exists (mkStaff "Ravi" "AM" [client_asha]). reflexivity.
  - simpl. lia.
Defined.

Lemma recordDelivered_idempotent_witness :
  let dbn :=
    repeat_delivered cfg0 day0 client_asha "PM"
      [staff_ravi; staff_meena; staff_ravi] db_delivered in
  (∀ c d s, (length (records_for c d s dbn) ≤ 1)%nat) ∧
  records_for client_asha day0 "PM" dbn = [ravi_delivered] ∧
  deliveries dbn = deliveries db_delivered ∧
  ∃ db', markClientDailyDelivered cfg0 day0 staff_ravi client_asha "PM" dbn
         = Ok ravi_delivered db' ∧
         deliveries db' = deliveries db_delivered.
Proof.
  apply (recordDelivered_idempotent cfg0 day0 staff_ravi client_asha "PM"
           db_assigned ravi_delivered db_delivered).
  - unfold unique_index. simpl. apply NoDup_nil_2.
  - reflexivity.
Defined.



Lemma second_staff_collides_witness :
  ¬ daily_query client_asha staff_meena day0 ravi_delivered ∧
  markClientDailyDelivered cfg0 day0 staff_meena client_asha "PM" db_reassigned
  = Err 500 "Error updating delivery status" ∧
  markClientDailyUndelivered cfg0 day0 staff_meena client_asha "gate locked" "PM"
    db_reassigned
  = Err 500 "Error updating delivery status".
Proof.
  destruct (second_staff_collides cfg0 day0 staff_ravi staff_meena client_asha
              "PM" "gate locked" db_reassigned ravi_delivered
              (mkStaff "Meena" "PM" [client_asha])
              (asha_delivered (Some staff_meena)))
    as (Hq & _ & Hd & _ & Hn).
  - simpl. apply list_elem_of_here.
  - reflexivity.
  - reflexivity.
  - discriminate.
  - reflexivity.
  - simpl. apply list_elem_of_here.
  - reflexivity.
  - discriminate.
  - discriminate.
  - split; [exact Hq|]. split; [exact Hd|exact Hn].
Defined.

Lemma getDeliverySuccessRate_spec_witness :
  sr_total (getDeliverySuccessRate day0 (day0 + day_ms - 1) db_three) = 3%nat ∧
  sr_delivered (getDeliverySuccessRate day0 (day0 + day_ms - 1) db_three) = 2%nat ∧
  sr_successRate (getDeliverySuccessRate day0 (day0 + day_ms - 1) db_three)
  = PrimFloat.mul (PrimFloat.div 2%float 3%float) 100%float ∧
  sr_successRate (getDeliverySuccessRate day0 (day0 + day_ms - 1) db_unassigned)
  = 0%float.
Proof.
  destruct (getDeliverySuccessRate_spec day0 (day0 + day_ms - 1) db_three)
    as (Ht & Hd & Hpos & _).
  destruct (getDeliverySuccessRate_spec day0 (day0 + day_ms - 1) db_unassigned)
    as (_ & _ & _ & Hzero).
  split; [exact Ht|]. split; [exact Hd|]. split.
  - rewrite Hpos; [reflexivity|]. rewrite Ht. simpl. lia.
  - apply Hzero. reflexivity.
Defined.

(** * More on lists as collections *)

Section MoreCollections.
Context {A : Type} (P : A → Prop) `{!∀ x, Decision (P x)}.

Lemma list_find_head (l : list A) : snd <$> list_find P l = head (filter P l).
Proof.
  induction l as [|x l IH]; [done|]. simpl.
  destruct (decide (P x)) as [Hx|Hx].
  - by rewrite filter_cons_True.
  - rewrite filter_cons_False by done. rewrite <- IH.
    by destruct (list_find P l) as [[i y]|].
Qed.

Lemma list_find_at_first (l1 l2 : list A) x :
  filter P l1 = [] → P x → list_find P (l1 ++ x :: l2) = Some (length l1, x).
Proof.
  intros Hpre Hx. apply list_find_Some. split_and!.
  - by apply list_lookup_middle.
  - done.
  - intros j y Hj Hlt. rewrite lookup_app_l in Hj by done.
    apply filter_nil_none in Hpre. rewrite Forall_forall in Hpre.
    apply Hpre. by eapply list_elem_of_lookup_2.
Qed.

Lemma filter_ext_elem (Q : A → Prop) `{!∀ x, Decision (Q x)} (l : list A) :
  (∀ x, x ∈ l → (P x ↔ Q x)) → filter P l = filter Q l.
Proof.
  induction l as [|x l IH]; intros Hext; [done|].
  assert (filter P l = filter Q l) as Hl.
  { apply IH. intros y Hy. apply Hext. by right. }
  destruct (decide (P x)) as [Hx|Hx].
  - rewrite !filter_cons_True; [by rewrite Hl|by apply Hext; [left|]|done].
  - rewrite !filter_cons_False; [done| |done].
    intros HQ. apply Hx. apply Hext; [left|done].
Qed.

End MoreCollections.

(** * More on the assignment ledger *)


Lemma ledger_step_exact db rq : ledger_exact db → ledger_exact (ledger_step db rq).
Proof.
  intros Hex. destruct rq as [sid cid|sid cid]; simpl.
  - destruct (assignClient sid cid db) as [s db'|] eqn:H; [|done].
    by eapply assignClient_preserves_ledger.
  - destruct (removeAssignment sid cid db) as [s db'|] eqn:H; [|done].
    by eapply removeAssignment_preserves_ledger.
Qed.

(** Whatever assignments and unassignments are requested of an exact
    ledger, accepted or refused, the ledger stays exact: every client
    has a back-reference exactly when a staff set holds it, and no
    client is in the sets of two staff members. *)
Theorem ledger_run_exact rqs db :
  ledger_exact db →
  ledger_exact (ledger_run rqs db) ∧
  ledger_consistent (ledger_run rqs db) ∧
  ∀ cid c sid1 s1 sid2 s2,
    clients (ledger_run rqs db) !! cid = Some c →
    staffs (ledger_run rqs db) !! sid1 = Some s1 → cid ∈ assignedClients s1 →
    staffs (ledger_run rqs db) !! sid2 = Some s2 → cid ∈ assignedClients s2 →
    sid1 = sid2.
Proof.
  intros Hex.
  assert (ledger_exact (ledger_run rqs db)) as Hrun.
  { revert db Hex. induction rqs as [|rq rqs IH]; intros db Hex; [done|].
    simpl. apply IH. by apply ledger_step_exact. }
  split_and!; [done|by apply ledger_exact_consistent|].
  intros cid c sid1 s1 sid2 s2 Hc Hs1 Hin1 Hs2 Hin2.
  assert (assignedStaff c = Some sid1) as H1 by (apply (Hrun cid c sid1 Hc); eauto).
  assert (assignedStaff c = Some sid2) as H2 by (apply (Hrun cid c sid2 Hc); eauto).
  congruence.
Qed.

Lemma updateAssignedClients_Ok sid sh db n db' :
  updateAssignedClients sid sh db = Ok n db' →
  ∃ staff,
    sh ∈ ["AM"; "PM"] ∧ staffs db !! sid = Some staff ∧
    let ids :=
      (filter (λ p, timeShift p.2 = sh)
         (find_clients_in (assignedClients staff) db)).*1 in
    n = length ids ∧
    db' = set_staffs (<[sid := set_assignedClients ids staff]> (staffs db)) db.
Proof.
  unfold updateAssignedClients. case_bool_decide as Hsh; [|done].
  destruct (staffs db !! sid) as [staff|] eqn:Hs; [|done].
  intros [= <- <-]. by exists staff.
Qed.

Lemma reconciled_ids_elem sh ids db cid :
  cid ∈ (filter (λ p, timeShift p.2 = sh) (find_clients_in ids db)).*1 ↔
  cid ∈ ids ∧ ∃ c, clients db !! cid = Some c ∧ timeShift c = sh.
Proof.
  unfold find_clients_in. split.
  - intros ([k c] & -> & Hin)%list_elem_of_fmap. simpl.
    apply list_elem_of_filter in Hin as [Hsh Hin].
    apply list_elem_of_filter in Hin as [Hids Hin].
    apply elem_of_map_to_list in Hin. eauto.
  - intros (Hids & c & Hc & Hsh).
    apply list_elem_of_fmap. exists (cid, c). split; [done|].
    apply list_elem_of_filter. split; [done|].
    apply list_elem_of_filter. split; [done|].
    by apply elem_of_map_to_list.
Qed.

(** Reconciling a staff member's set twice for the same shift is
    reconciling it once: the second call answers the same count and
    leaves the database as the first left it. *)
Theorem updateAssignedClients_idempotent sid sh db n db' :
  updateAssignedClients sid sh db = Ok n db' →
  updateAssignedClients sid sh db' = Ok n db'.
Proof.
  intros (staff & Hsh & Hs & Hn & ->)%updateAssignedClients_Ok.
  simpl in Hn. subst n.
  set (ids := (filter (λ p, timeShift p.2 = sh)
                 (find_clients_in (assignedClients staff) db)).*1).
  unfold updateAssignedClients. rewrite bool_decide_eq_true_2 by done.
  simpl. rewrite lookup_insert_eq. simpl.
  assert ((filter (λ p, timeShift p.2 = sh)
             (find_clients_in ids
                (set_staffs (<[sid:=set_assignedClients ids staff]> (staffs db)) db))).*1
          = ids) as ->.
  { unfold ids at 2. f_equal. unfold find_clients_in. simpl.
    rewrite !list_filter_filter. apply filter_ext_elem.
    intros [k c] Hin. simpl. apply elem_of_map_to_list in Hin.
    split; intros [Hsh' Hk]; (split; [done|]).
    - apply reconciled_ids_elem in Hk. tauto.
    - apply reconciled_ids_elem. eauto. }
  f_equal. unfold set_staffs. simpl. rewrite insert_insert_eq. done.
Qed.

(** Reconciling for one shift and then for the other leaves the staff
    member with no client at all: the second reconciliation selects
    among the clients the first one kept. *)
Theorem updateAssignedClients_other_shift_empties sid sh1 sh2 db n1 db1 :
  updateAssignedClients sid sh1 db = Ok n1 db1 →
  sh2 ∈ ["AM"; "PM"] → sh1 ≠ sh2 →
  ∃ staff2 db2,
    updateAssignedClients sid sh2 db1 = Ok 0%nat db2 ∧
    staffs db2 !! sid = Some staff2 ∧ assignedClients staff2 = [] ∧
    clients db2 = clients db.
Proof.
  intros (staff & Hsh & Hs & Hn & ->)%updateAssignedClients_Ok Hsh2 Hne.
  simpl in Hn.
  set (ids := (filter (λ p, timeShift p.2 = sh1)
                 (find_clients_in (assignedClients staff) db)).*1) in *.
  unfold updateAssignedClients. rewrite bool_decide_eq_true_2 by done.
  simpl. rewrite lookup_insert_eq. simpl.
  assert ((filter (λ p, timeShift p.2 = sh2)
             (find_clients_in ids
                (set_staffs (<[sid:=set_assignedClients ids staff]> (staffs db)) db)))
          = []) as ->.
  { apply filter_none, Forall_forall. intros [k c] Hin Hc2. simpl in *.
    unfold find_clients_in in Hin. simpl in Hin.
    apply list_elem_of_filter in Hin as [Hk Hin]. simpl in Hk.
    apply elem_of_map_to_list in Hin.
    apply reconciled_ids_elem in Hk as (_ & c' & Hc' & Hsh1). congruence. }
  eexists _, _. split; [done|]. simpl. rewrite lookup_insert_eq. done.
Qed.

(** Deleting a staff member touches nothing else.  A client of theirs
    keeps its back-reference to a staff member who no longer exists: the
    ledger is inconsistent, and the client can neither be assigned nor
    unassigned any more. *)
Theorem removeStaff_orphans_clients sid cid db staff client :
  ledger_exact db →
  staffs db !! sid = Some staff → cid ∈ assignedClients staff →
  clients db !! cid = Some client →
  ∃ db',
    removeStaff sid db = Ok "Staff member deleted successfully" db' ∧
    staffs db' = delete sid (staffs db) ∧
    clients db' = clients db ∧ sessions db' = sessions db ∧
    deliveries db' = deliveries db ∧
    assignedStaff client = Some sid ∧
    ¬ ledger_consistent db' ∧
    (∀ sid', ∃ status msg, assignClient sid' cid db' = Err status msg) ∧
    (∀ sid', ∃ status msg, removeAssignment sid' cid db' = Err status msg).
Proof.
  intros Hex Hs Hin Hc. unfold removeStaff. rewrite Hs.
  eexists. split; [done|]. simpl.
  assert (assignedStaff client = Some sid) as Hback
    by (apply (Hex cid client sid Hc); eauto).
  assert (∀ sid' s', delete sid (staffs db) !! sid' = Some s' →
                     cid ∉ assignedClients s') as Hno.
  { intros sid' s' Hs' Hin'. apply lookup_delete_Some in Hs' as [Hne Hs'].
    assert (assignedStaff client = Some sid') as Hback'
      by (apply (Hex cid client sid' Hc); eauto).
    congruence. }
  split_and!; try done.
  - intros Hcons. destruct (Hcons cid client Hc) as [Hto _]. simpl in Hto.
    destruct Hto as (sid' & s' & Hs' & Hin'); [by rewrite Hback|].
    by apply (Hno sid' s').
  - intros sid'. unfold assignClient. simpl.
    destruct (delete sid (staffs db) !! sid') as [s'|] eqn:Hs'; [|by eexists _, _].
    rewrite Hc. rewrite bool_decide_eq_false_2 by (by eapply Hno).
    rewrite Hback. by eexists _, _.
  - intros sid'. unfold removeAssignment. simpl.
    destruct (delete sid (staffs db) !! sid') as [s'|] eqn:Hs'; [|by eexists _, _].
    rewrite Hc. rewrite bool_decide_eq_false_2 by (by eapply Hno).
    by eexists _, _.
Qed.

Lemma ledger_run_exact_witness :
  let db :=
    ledger_run
      [Assign staff_ravi client_asha; Assign staff_meena client_asha;
       Unassign staff_meena client_asha; Unassign staff_ravi client_asha;
       Assign staff_meena client_asha]
      db_unassigned in
  ledger_exact db ∧ ledger_consistent db ∧
  ∀ cid c sid1 s1 sid2 s2,
    clients db !! cid = Some c →
    staffs db !! sid1 = Some s1 → cid ∈ assignedClients s1 →
    staffs db !! sid2 = Some s2 → cid ∈ assignedClients s2 →
    sid1 = sid2.
Proof.
  apply (ledger_run_exact
           [Assign staff_ravi client_asha; Assign staff_meena client_asha;
            Unassign staff_meena client_asha; Unassign staff_ravi client_asha;
            Assign staff_meena client_asha]
           db_unassigned).
  exact db_unassigned_exact.
Defined.

Lemma updateAssignedClients_idempotent_witness :
  updateAssignedClients staff_ravi "AM" db_reconciled = Ok 0%nat db_reconciled.
Proof.
  apply (updateAssignedClients_idempotent staff_ravi "AM" db_assigned 0%nat
           db_reconciled).
  reflexivity.
Defined.

Lemma updateAssignedClients_other_shift_empties_witness :
  ∃ staff2 db2,
    updateAssignedClients staff_ravi "AM" db_assigned = Ok 0%nat db2 ∧
    staffs db2 !! staff_ravi = Some staff2 ∧ assignedClients staff2 = [] ∧
    clients db2 = clients db_assigned.
Proof.
  apply (updateAssignedClients_other_shift_empties staff_ravi "PM" "AM"
           db_assigned 1%nat db_assigned).
  - reflexivity.
  - simpl. apply list_elem_of_here.
  - discriminate.
Defined.

Lemma removeStaff_orphans_clients_witness :
  ∃ db',
    removeStaff staff_ravi db_assigned
    = Ok "Staff member deleted successfully" db' ∧
    staffs db' = delete staff_ravi (staffs db_assigned) ∧
    clients db' = clients db_assigned ∧ sessions db' = sessions db_assigned ∧
    deliveries db' = deliveries db_assigned ∧
    assignedStaff (asha (Some staff_ravi)) = Some staff_ravi ∧
    ¬ ledger_consistent db' ∧
    (∀ sid', ∃ status msg, assignClient sid' client_asha db' = Err status msg) ∧
    (∀ sid', ∃ status msg, removeAssignment sid' client_asha db' = Err status msg).
Proof.
  apply (removeStaff_orphans_clients staff_ravi client_asha db_assigned
           (mkStaff "Ravi" "AM" [client_asha]) (asha (Some staff_ravi))).
  - exact (assignClient_preserves_ledger staff_ravi client_asha db_unassigned
             (mkStaff "Ravi" "AM" [client_asha]) db_assigned
             db_unassigned_exact assign_db_unassigned).
  - reflexivity.
  - simpl. apply list_elem_of_here.
  - reflexivity.
Defined.

(** * More on shift sessions *)


Lemma getSessionByDate_payload day sid db :
  payload_of (getSessionByDate day sid db) = head (sessions_for sid day db).
Proof.
  unfold getSessionByDate, sessions_for. rewrite <- list_find_head.
  by destruct (list_find _ _) as [[i s]|].
Qed.

(** The session a successful selection leaves for its staff member and
    day is the first the query finds. *)
Lemma selectShift_list_find cfg today sid sh db s db' :
  selectShift cfg today sid sh db = Ok s db' →
  ∃ i, list_find (session_key sid today) (sessions db')
       = Some (i, mkSession sid today sh).
Proof.
  intros Hsel.
  pose proof (selectShift_Ok _ _ _ _ _ _ _ Hsel) as (-> & _ & _ & _ & _ & Hcase).
  destruct Hcase as [(l1 & x & l2 & _ & _ & Hpre & ->)|[Hnone ->]].
  - exists (length l1). by apply list_find_at_first.
  - exists (length (sessions db)). by apply list_find_at_first.
Qed.

(** [getSessionByDate] reads back what [selectShift] wrote: after a
    successful selection the session of that staff member and day is
    the one selected, whatever was stored before, and the answer for any
    other staff member or day is what it was. *)
Theorem selectShift_getSessionByDate cfg today sid sh db s db' :
  selectShift cfg today sid sh db = Ok s db' →
  getSessionByDate today sid db' = Ok (mkSession sid today sh) db' ∧
  ∀ sid' day', (sid', day') ≠ (sid, today) →
    payload_of (getSessionByDate day' sid' db')
    = payload_of (getSessionByDate day' sid' db).
Proof.
  intros Hsel. split.
  - destruct (selectShift_list_find _ _ _ _ _ _ _ Hsel) as [i Hfind].
    unfold getSessionByDate. by rewrite Hfind.
  - intros sid' day' Hne. rewrite !getSessionByDate_payload.
    by erewrite selectShift_other_key.
Qed.


(** Starting without sessions, whatever shifts are selected, for
    whichever staff members and days, accepted or refused, no (staff,
    day) ever has two sessions. *)
Theorem select_run_one_session cfg rqs db :
  sessions db = [] →
  ∀ sid day, (length (sessions_for sid day (select_run cfg rqs db)) ≤ 1)%nat.
Proof.
  intros Hnil.
  assert (∀ sid day, (length (sessions_for sid day db) ≤ 1)%nat) as Hinv.
  { intros sid day. unfold sessions_for. rewrite Hnil. simpl. lia. }
  clear Hnil. revert db Hinv.
  induction rqs as [|[[day sid] sh] rqs IH]; intros db Hinv; [done|].
  simpl. apply IH. unfold select_step. simpl.
  by apply selectShift_preserves_one_session.
Qed.

(** * Sorting *)

Section SortPerm.
Context {A : Type} (leb : A → A → bool).

Lemma sort_insert_perm x l : sort_insert leb x l ≡ₚ x :: l.
Proof.
  induction l as [|y l IH]; [done|]. simpl.
  destruct (leb x y); [done|]. rewrite IH. apply Permutation_swap.
Qed.

Lemma sort_by_perm l : sort_by leb l ≡ₚ l.
Proof.
  induction l as [|x l IH]; [done|]. simpl.
  rewrite sort_insert_perm. by rewrite IH.
Qed.

Lemma sort_by_elem x l : x ∈ sort_by leb l ↔ x ∈ l.
Proof. by rewrite sort_by_perm. Qed.


Hypothesis leb_total : ∀ x y, leb x y = true ∨ leb y x = true.
Hypothesis leb_trans : ∀ x y z, leb x y = true → leb y z = true → leb x z = true.

Lemma sort_insert_sorted_all x l :
  sorted_all leb l → sorted_all leb (sort_insert leb x l).
Proof.
  induction l as [|y l IH]; intros Hl; [done|].
  simpl. destruct Hl as [Hy Hl]. destruct (leb x y) eqn:Hxy.
  - simpl. split_and!; [|done..].
    apply Forall_cons; split; [done|].
    eapply Forall_impl; [exact Hy|]. intros z Hz. by eapply leb_trans.
  - simpl. split; [|by apply IH].
    apply sort_insert_Forall; [|done].
    destruct (leb_total x y); congruence.
Qed.

Lemma sort_by_sorted_all l : sorted_all leb (sort_by leb l).
Proof.
  induction l as [|x l IH]; [done|]. by apply sort_insert_sorted_all.
Qed.

Lemma sorted_all_filter (P : A → Prop) `{!∀ x, Decision (P x)} l :
  sorted_all leb l → sorted_all leb (filter P l).
Proof.
  induction l as [|x l IH]; intros Hl; [done|]. destruct Hl as [Hx Hl].
  destruct (decide (P x)).
  - rewrite filter_cons_True by done. split; [|by apply IH].
    rewrite Forall_forall in Hx |- *. intros y Hy%list_elem_of_filter.
    apply Hx, Hy.
  - rewrite filter_cons_False by done. by apply IH.
Qed.

Lemma sorted_all_ascending l : sorted_all leb l → ascending leb l.
Proof.
  induction l as [|x l IH]; intros Hl; [done|]. destruct Hl as [Hx Hl].
  split; [|by apply IH]. destruct l as [|y l]; [done|].
  by apply Forall_cons in Hx as [Hx _].
Qed.

End SortPerm.

Lemma String_leb_trans x y z :
  String.leb x y = true → String.leb y z = true → String.leb x z = true.
Proof.
  unfold String.leb.
  destruct (String.compare x y) eqn:Hxy; destruct (String.compare y z) eqn:Hyz;
    intros H1 H2; try discriminate.
  - apply String.compare_eq_iff in Hxy as ->. by rewrite Hyz.
  - apply String.compare_eq_iff in Hxy as ->. by rewrite Hyz.
  - apply String.compare_eq_iff in Hyz as <-. by rewrite Hxy.
  - apply String_as_OT.cmp_lt in Hxy, Hyz.
    pose proof (String_as_OT.lt_trans _ _ _ Hxy Hyz) as Hxz.
    apply String_as_OT.cmp_lt in Hxz. unfold String_as_OT.cmp in Hxz.
    by rewrite Hxz.
Qed.

(** * The clients of a shift *)

(** Once a staff member has selected a shift for the day,
    [getAssignedClients] lists exactly the existing clients of their
    set whose shift is the selected one, each as the projection of its
    document, in ascending order of name. *)
Theorem getAssignedClients_after_selectShift cfg today sid sh db0 s db :
  selectShift cfg today sid sh db0 = Ok s db →
  ∃ rows,
    getAssignedClients today false sid db = Ok rows db ∧
    (∀ row, row ∈ rows ↔
       ∃ staff c,
         staffs db !! sid = Some staff ∧ row_id row ∈ assignedClients staff ∧
         clients db !! row_id row = Some c ∧ timeShift c = sh ∧
         row = client_row (row_id row, c)) ∧
    ascending (λ a b, String.leb (row_name a) (row_name b)) rows.
Proof.
  intros Hsel.
  destruct (selectShift_list_find _ _ _ _ _ _ _ Hsel) as [i Hfind].
  pose proof (selectShift_Ok _ _ _ _ _ _ _ Hsel) as (_ & Hne & _ & [staff0 Hs0] & Hst & _).
  rewrite <- Hst in Hs0. unfold getAssignedClients. rewrite Hs0.
  destruct (assignedClients staff0) as [|id0 ids0] eqn:Hids.
  - exists []. split_and!; [done| |done].
    intros row. split; [by intros ?%elem_of_nil|].
    intros (staff & c & Hs & Hin & _).
    assert (staff = staff0) as -> by congruence.
    rewrite Hids in Hin. by apply elem_of_nil in Hin.
  - rewrite Hfind. simpl. rewrite bool_decide_eq_false_2 by done.
    eexists. split_and!; [done| |].
    + intros row. rewrite list_elem_of_filter, sort_by_elem, list_elem_of_fmap.
      unfold find_clients_in. split.
      * intros (Hsh & [k c] & -> & Hin). simpl in *.
        apply list_elem_of_filter in Hin as [Hk Hin]. simpl in Hk.
        apply elem_of_map_to_list in Hin.
        exists staff0, c. rewrite Hids. done.
      * intros (staff & c & Hs & Hin & Hc & Hsh & ->). simpl in *.
        assert (staff = staff0) as -> by congruence. rewrite Hids in Hin.
        split; [done|]. exists (row_id row, c). split; [done|].
        apply list_elem_of_filter. split; [done|].
        by apply elem_of_map_to_list.
    + apply sorted_all_ascending, sorted_all_filter, sort_by_sorted_all.
      * intros x y. apply String.leb_total.
      * intros x y z. apply String_leb_trans.
Qed.

Lemma selectShift_getSessionByDate_witness :
  getSessionByDate day0 staff_ravi db_selected
  = Ok (mkSession staff_ravi day0 "PM") db_selected ∧
  ∀ sid' day', (sid', day') ≠ (staff_ravi, day0) →
    payload_of (getSessionByDate day' sid' db_selected)
    = payload_of (getSessionByDate day' sid' db_assigned).
Proof.
  apply (selectShift_getSessionByDate cfg0 day0 staff_ravi "PM" db_assigned
           (mkSession staff_ravi day0 "PM") db_selected).
  reflexivity.
Defined.

Lemma select_run_one_session_witness :
  let db :=
    select_run cfg0
      [(day0, staff_ravi, "AM"); (day0, staff_meena, "PM");
       (day0, staff_ravi, "PM"); (day0 + day_ms, staff_ravi, "AM")]
      db_assigned in
  (length (sessions_for staff_ravi day0 db) ≤ 1)%nat.
Proof.
  apply (select_run_one_session cfg0
           [(day0, staff_ravi, "AM"); (day0, staff_meena, "PM");
            (day0, staff_ravi, "PM"); (day0 + day_ms, staff_ravi, "AM")]
           db_assigned).
  reflexivity.
Defined.

Lemma getAssignedClients_after_selectShift_witness :
  ∃ rows,
    getAssignedClients day0 false staff_ravi db_selected = Ok rows db_selected ∧
    (∀ row, row ∈ rows ↔
       ∃ staff c,
         staffs db_selected !! staff_ravi = Some staff ∧
         row_id row ∈ assignedClients staff ∧
         clients db_selected !! row_id row = Some c ∧ timeShift c = "PM" ∧
         row = client_row (row_id row, c)) ∧
    ascending (λ a b, String.leb (row_name a) (row_name b)) rows.
Proof.
  apply (getAssignedClients_after_selectShift cfg0 day0 staff_ravi "PM"
           db_assigned (mkSession staff_ravi day0 "PM") db_selected).
  reflexivity.
Defined.

(** * The other writers of the delivery collection *)


Section Writers.
Variable midnight : Z → Z.
Implicit Types (db : DB) (coll : list DailyDeliveryDoc).

(** Rewriting a document into one with the same key and a valid status
    keeps the index and the schema. *)
Lemma insert_same_key coll i r r' :
  coll !! i = Some r → index_key r' = index_key r →
  index_key <$> <[i := r']> coll = index_key <$> coll.
Proof.
  intros Hi Hk. rewrite list_fmap_insert, Hk. apply list_insert_id.
  by rewrite list_lookup_fmap, Hi.
Qed.

Lemma insert_schema_valid coll i r' :
  Forall (λ r, schema_status (deliveryStatus r)) coll →
  schema_status (deliveryStatus r') →
  Forall (λ r, schema_status (deliveryStatus r)) (<[i := r']> coll).
Proof. intros Hv Hr. by apply Forall_insert. Qed.

Lemma save_new_Some r coll r' coll' :
  save_new midnight r coll = Some (r', coll') →
  r' = pre_save midnight r ∧ coll' = coll ++ [r'] ∧
  shift r ∈ ["AM"; "PM"] ∧ index_key r' ∉ index_key <$> coll.
Proof.
  unfold save_new. case_bool_decide as Hsh; [|done].
  case_bool_decide as Hk; [done|]. intros [= <- <-]. done.
Qed.

Lemma markClientDelivered_Ok now user cid db c' d' db' :
  markClientDelivered midnight now user cid db = Ok (c', d') db' →
  ∃ client u,
    clients db !! cid = Some client ∧ user = Some u ∧
    c' = set_client_status "Delivered" (deliveryNotes client) client ∧
    clients db' = <[cid := c']> (clients db) ∧
    staffs db' = staffs db ∧ sessions db' = sessions db ∧
    staffId d' = u ∧ deliveryStatus d' = "Delivered" ∧
    quantity d' = c_quantity client ∧
    price d' = PrimFloat.mul (c_quantity client) (pricePerLitre client) ∧
    ((∃ i d, list_find (client_day_query cid (midnight now)) (deliveries db)
             = Some (i, d) ∧
             index_key d' = index_key d ∧ notes d' = notes d ∧
             deliveries db' = <[i := d']> (deliveries db)) ∨
     (list_find (client_day_query cid (midnight now)) (deliveries db) = None ∧
      index_key d' = (cid, midnight now, timeShift client) ∧
      (index_key d' ∉ index_key <$> deliveries db) ∧
      deliveries db' = deliveries db ++ [d'])).
Proof.
  unfold markClientDelivered.
  destruct (clients db !! cid) as [client|] eqn:Hc; [|done].
  destruct (list_find _ _) as [[i d]|] eqn:Hfind.
  - destruct user as [u|]; [|done]. intros [= <- <- <-].
    exists client, u. split_and!; try done. left. by exists i, d.
  - destruct user as [u|]; [|done].
    destruct (save_new _ _ _) as [[d coll]|] eqn:Hsave; [|done].
    intros [= <- <- <-]. apply save_new_Some in Hsave as (-> & -> & _ & Hk).
    exists client, u. split_and!; try done. right. done.
Qed.

Lemma markClientUndelivered_Ok now staffRecord cid reason db c' d' db' :
  markClientUndelivered midnight now staffRecord cid reason db = Ok (c', d') db' →
  ∃ client,
    clients db !! cid = Some client ∧
    c' = set_client_status "Not Delivered" reason client ∧
    clients db' = <[cid := c']> (clients db) ∧
    staffs db' = staffs db ∧ sessions db' = sessions db ∧
    deliveryStatus d' = "Not Delivered" ∧
    quantity d' = 0%float ∧ price d' = 0%float ∧ notes d' = reason ∧
    ((∃ i d, list_find (client_day_query cid (midnight now)) (deliveries db)
             = Some (i, d) ∧
             index_key d' = index_key d ∧
             staffId d' = default (staffId d) staffRecord ∧
             deliveries db' = <[i := d']> (deliveries db)) ∨
     (list_find (client_day_query cid (midnight now)) (deliveries db) = None ∧
      staffRecord = Some (staffId d') ∧
      index_key d' = (cid, midnight now, timeShift client) ∧
      (index_key d' ∉ index_key <$> deliveries db) ∧
      deliveries db' = deliveries db ++ [d'])).
Proof.
  unfold markClientUndelivered.
  destruct (clients db !! cid) as [client|] eqn:Hc; [|done].
  destruct (list_find _ _) as [[i d]|] eqn:Hfind.
  - intros [= <- <- <-]. exists client. split_and!; try done. left. by exists i, d.
  - destruct staffRecord as [s|]; [|done].
    destruct (save_new _ _ _) as [[d coll]|] eqn:Hsave; [|done].
    intros [= <- <- <-]. apply save_new_Some in Hsave as (-> & -> & _ & Hk).
    exists client. split_and!; try done. right. done.
Qed.

Lemma markDaily_Ok status day sid cid db msg db' :
  markDaily status day sid cid db = Ok msg db' →
  ∃ i r,
    list_find (exact_day_query sid cid day) (deliveries db) = Some (i, r) ∧
    db' = set_deliveries (<[i := set_deliveryStatus status r]> (deliveries db)) db.
Proof.
  unfold markDaily. destruct (list_find _ _) as [[i r]|] eqn:Hfind; [|done].
  intros [= <- <-]. by exists i, r.
Qed.

End Writers.

Lemma recorder_step_invariant cfg midnight db rq :
  unique_index db ∧ schema_valid db →
  unique_index (recorder_step cfg midnight db rq) ∧
  schema_valid (recorder_step cfg midnight db rq).
Proof.
  intros [Hu Hv]. destruct rq as [today sid cid sh|today sid cid reason sh
    |now user cid|now staffRecord cid reason|day sid cid|day sid cid]; simpl.
  - split; [by apply markClientDailyDelivered_unique_index
           |by apply markClientDailyDelivered_schema_valid].
  - split; [by apply markClientDailyUndelivered_unique_index
           |by apply markClientDailyUndelivered_schema_valid].
  - destruct (markClientDelivered _ _ _ _ _) as [[c' d'] db'|] eqn:Hm; [|done].
    apply markClientDelivered_Ok in Hm
      as (client & u & _ & _ & _ & _ & _ & _ & _ & Hst & _ & _ & Hcase).
    unfold unique_index, schema_valid in *. simpl.
    destruct Hcase as [(i & d & Hfind & Hk & _ & ->)|(_ & _ & Hk & ->)].
    + apply list_find_Some in Hfind as (Hi & _ & _).
      rewrite (insert_same_key _ _ _ _ Hi Hk). split; [done|].
      apply insert_schema_valid; [done|]. rewrite Hst. by left.
    + split; [by apply NoDup_key_append|].
      apply Forall_app; split; [done|]. apply Forall_singleton.
      rewrite Hst. by left.
  - destruct (markClientUndelivered _ _ _ _ _ _) as [[c' d'] db'|] eqn:Hm; [|done].
    apply markClientUndelivered_Ok in Hm
      as (client & _ & _ & _ & _ & _ & Hst & _ & _ & _ & Hcase).
    unfold unique_index, schema_valid in *. simpl.
    destruct Hcase as [(i & d & Hfind & Hk & _ & ->)|(_ & _ & _ & Hk & ->)].
    + apply list_find_Some in Hfind as (Hi & _ & _).
      rewrite (insert_same_key _ _ _ _ Hi Hk). split; [done|].
      apply insert_schema_valid; [done|]. rewrite Hst. by right.
    + split; [by apply NoDup_key_append|].
      apply Forall_app; split; [done|]. apply Forall_singleton.
      rewrite Hst. by right.
  - unfold markDailyDelivered.
    destruct (markDaily _ _ _ _ _) as [msg db'|] eqn:Hm; [|done].
    apply markDaily_Ok in Hm as (i & r & Hfind & ->).
    apply list_find_Some in Hfind as (Hi & _ & _).
    unfold unique_index, schema_valid in *. simpl.
    rewrite (insert_same_key _ _ r _ Hi) by done. split; [done|].
    apply insert_schema_valid; [done|]. by left.
  - unfold markDailyUndelivered.
    destruct (markDaily _ _ _ _ _) as [msg db'|] eqn:Hm; [|done].
    apply markDaily_Ok in Hm as (i & r & Hfind & ->).
    apply list_find_Some in Hfind as (Hi & _ & _).
    unfold unique_index, schema_valid in *. simpl.
    rewrite (insert_same_key _ _ r _ Hi) by done. split; [done|].
    apply insert_schema_valid; [done|]. by right.
Qed.

(** Whatever the six handlers that write delivery records are asked, in
    whatever order, accepted or refused, the collection keeps the
    unique index and the schema's statuses: no (client, date, shift)
    ever has two records. *)
Theorem recorder_run_unique cfg midnight rqs db :
  unique_index db → schema_valid db →
  unique_index (recorder_run cfg midnight rqs db) ∧
  schema_valid (recorder_run cfg midnight rqs db) ∧
  ∀ cid day sh,
    (length (records_for cid day sh (recorder_run cfg midnight rqs db)) ≤ 1)%nat.
Proof.
  intros Hu Hv.
  assert (unique_index (recorder_run cfg midnight rqs db) ∧
          schema_valid (recorder_run cfg midnight rqs db)) as [Hu' Hv'].
  { assert (unique_index db ∧ schema_valid db) as Hinv by done.
    clear Hu Hv. revert db Hinv.
    induction rqs as [|rq rqs IH]; intros db Hinv; [done|].
    simpl. apply IH. by apply recorder_step_invariant. }
  split_and!; [done..|].
  intros cid day sh. by apply unique_index_at_most_one.
Qed.

Lemma recorder_run_unique_witness :
  let db :=
    recorder_run cfg0 utc_midnight
      [DailyDelivered day0 staff_ravi client_asha "PM";
       ClientUndelivered one_am (Some staff_meena) client_asha
         (Some "gate locked");
       DailyDelivered day0 staff_ravi client_asha "AM";
       FlipDelivered day0 staff_meena client_asha;
       ClientDelivered one_am None client_asha;
       DailyUndelivered (day0 + day_ms) staff_ravi client_asha "no one home" "PM"]
      db_assigned in
  unique_index db ∧ schema_valid db ∧
  ∀ cid day sh, (length (records_for cid day sh db) ≤ 1)%nat.
Proof.
  apply (recorder_run_unique cfg0 utc_midnight
           [DailyDelivered day0 staff_ravi client_asha "PM";
            ClientUndelivered one_am (Some staff_meena) client_asha
              (Some "gate locked");
            DailyDelivered day0 staff_ravi client_asha "AM";
            FlipDelivered day0 staff_meena client_asha;
            ClientDelivered one_am None client_asha;
            DailyUndelivered (day0 + day_ms) staff_ravi client_asha
              "no one home" "PM"]
           db_assigned).
  - unfold unique_index. simpl. apply NoDup_nil_2.
  - unfold schema_valid. simpl. apply Forall_nil_2.
Defined.

(** * How the recorder's handlers compose *)

(** The upsert does not ask for the shift.  When the first record the
    staff member has for the client that day is one of another key (the
    other shift), a successful [markClientDailyDelivered] rewrites that
    record: its key is left without a record, the new key has exactly
    the record answered, and the collection has not grown. *)
Theorem markClientDailyDelivered_rewrites_other_shift
    cfg today sid cid sh db i x r db' :
  unique_index db →
  list_find (daily_query cid sid today) (deliveries db) = Some (i, x) →
  index_key x ≠ (cid, today, sh) →
  markClientDailyDelivered cfg today sid cid sh db = Ok r db' →
  records_for (clientId x) (date x) (shift x) db' = [] ∧
  records_for cid today sh db' = [r] ∧
  length (deliveries db') = length (deliveries db) ∧
  notes r = notes x.
Proof.
  intros Hu Hfind Hkx Hm.
  pose proof (markClientDailyDelivered_unique_index cfg today sid cid sh db Hu) as Hu'.
  rewrite Hm in Hu'. simpl in Hu'.
  apply markClientDailyDelivered_Ok in Hm
    as (staff & client & coll' & _ & _ & _ & _ & Hfou & ->).
  unfold findOneAndUpdate in Hfou. rewrite Hfind in Hfou.
  case_bool_decide as Hdup; [done|]. injection Hfou as <- <-.
  apply list_find_split in Hfind as (Hl & Hx & Hpre & Hlen).
  set (l1 := take i (deliveries db)) in *.
  set (l2 := drop (S i) (deliveries db)) in *.
  set (r := delivered_doc today sid cid sh client (notes x)) in *.
  assert (<[i := r]> (deliveries db) = l1 ++ r :: l2) as Hcoll.
  { rewrite Hl at 1. rewrite <- Hlen at 1. apply insert_middle. }
  unfold unique_index, records_for in *.
  cbn [deliveries set_clients set_deliveries] in *. rewrite Hcoll in Hu' |- *.
  split_and!.
  - apply filter_none, Forall_forall. intros y Hy Hky.
    assert (index_key y = index_key x) as Hyx by (by destruct x).
    apply elem_of_app in Hy as [Hy|Hy].
    + rewrite Hl in Hu. rewrite fmap_app, fmap_cons in Hu.
      apply NoDup_app in Hu as (_ & Hdisj & _).
      apply (Hdisj (index_key x)); [|left].
      rewrite <- Hyx. by apply list_elem_of_fmap_2.
    + apply elem_of_cons in Hy as [->|Hy]; [by apply Hkx|].
      rewrite Hl in Hu. rewrite fmap_app, fmap_cons in Hu.
      apply NoDup_app in Hu as (_ & _ & Hu). apply NoDup_cons in Hu as [Hnin _].
      apply Hnin. rewrite <- Hyx. by apply list_elem_of_fmap_2.
  - change (cid, today, sh) with (index_key r).
    apply (filter_key_unique index_key); [done|].
    apply elem_of_app. right. by left.
  - rewrite <- Hcoll. apply length_insert.
  - done.
Qed.

(** The total of a bill that ends with [m] copies of an entry. *)
Lemma totalAmount_replicate entries e m :
  totalAmount (entries ++ replicate m e)
  = Nat.iter m (λ sum, PrimFloat.add sum (be_subtotal e)) (totalAmount entries).
Proof.
  unfold totalAmount. rewrite foldl_app.
  generalize (foldl (λ sum entry, PrimFloat.add sum (be_subtotal entry))
                0%float entries) as a.
  induction m as [|m IH]; intros a; [done|].
  rewrite replicate_S. cbn [foldl]. rewrite IH.
  exact (eq_sym (Nat.iter_succ_r m (λ sum, PrimFloat.add sum (be_subtotal e)) a)).
Qed.

Lemma repeat_same_staff_history cfg today sid cid sh r0 q p h n :
  ∀ k coll d,
    recorded today sid cid sh r0 coll d →
    (∃ c0, clients d !! cid = Some c0 ∧ c_quantity c0 = q ∧
           pricePerLitre c0 = p ∧
           deliveryHistory c0
           = h ++ replicate k (mkHistoryEntry today "Delivered" q None)) →
    recorded today sid cid sh r0 coll
      (repeat_delivered cfg today cid sh (replicate n sid) d) ∧
    ∃ cn, clients (repeat_delivered cfg today cid sh (replicate n sid) d) !! cid
          = Some cn ∧ c_quantity cn = q ∧ pricePerLitre cn = p ∧
          deliveryHistory cn
          = h ++ replicate (n + k) (mkHistoryEntry today "Delivered" q None).
Proof.
  induction n as [|n IH]; intros k coll d Hrec Hcl; [by split|].
  replace (S n + k)%nat with (n + S k)%nat by lia. simpl.
  destruct (same_staff_call_succeeds cfg today sid cid sh r0 coll d Hrec)
    as (d' & Hcall & _).
  pose proof (later_call_recorded cfg today sid cid sh r0 coll d sid Hrec)
    as Hrec'.
  rewrite Hcall in Hrec' |- *. simpl in Hrec' |- *.
  apply IH; [done|].
  destruct Hcl as (c0 & Hc0 & Hq0 & Hp0 & Hh0).
  apply markClientDailyDelivered_Ok in Hcall
    as (staff & client' & coll' & _ & _ & Hc' & _ & _ & ->).
  assert (client' = c0) as -> by congruence.
  simpl. rewrite lookup_insert_eq. eexists. split_and!; [done..|].
  simpl. rewrite Hh0, Hq0, <- app_assoc. f_equal.
  exact (eq_sym (replicate_S_end _ _)).
Qed.

(** Every successful [markClientDailyDelivered] appends to the client's
    history, also when it only rewrites the record it wrote before.
    After a first call and [n] repetitions by the same staff member the
    key still has one record, the history has [n + 1] new entries, and
    a bill of a period that contains the day lists the delivery [n + 1]
    times and charges it [n + 1] times. *)
Theorem repeated_delivered_history cfg today sid cid sh db client r0 db0 n :
  unique_index db → clients db !! cid = Some client →
  markClientDailyDelivered cfg today sid cid sh db = Ok r0 db0 →
  let dbn := repeat_delivered cfg today cid sh (replicate n sid) db0 in
  let q := c_quantity client in
  let p := pricePerLitre client in
  records_for cid today sh dbn = [r0] ∧
  ∃ clientn,
    clients dbn !! cid = Some clientn ∧
    deliveryHistory clientn
    = deliveryHistory client
      ++ replicate (S n) (mkHistoryEntry today "Delivered" q None) ∧
    ∀ startOfMonth now, startOfMonth ≤ today → today ≤ now →
      billEntries startOfMonth now clientn
      = billEntries startOfMonth now client
        ++ replicate (S n) (mkBillEntry today q p (PrimFloat.mul q p)) ∧
      totalAmount (billEntries startOfMonth now clientn)
      = Nat.iter (S n) (λ sum, PrimFloat.add sum (PrimFloat.mul q p))
          (totalAmount (billEntries startOfMonth now client)).
Proof.
  intros Hu Hc Hm dbn q p.
  pose proof (first_call_recorded cfg today sid cid sh db r0 db0 Hu Hm) as Hrec0.
  assert (∃ c0, clients db0 !! cid = Some c0 ∧
                c_quantity c0 = q ∧ pricePerLitre c0 = p ∧
                deliveryHistory c0
                = deliveryHistory client
                  ++ replicate 1 (mkHistoryEntry today "Delivered" q None))
    as Hc0.
  { pose proof Hm as Hm'. apply markClientDailyDelivered_Ok in Hm'
      as (staff & client' & coll' & _ & _ & Hc' & _ & _ & ->).
    assert (client' = client) as -> by congruence.
    simpl. rewrite lookup_insert_eq. eexists. done. }
  destruct (repeat_same_staff_history cfg today sid cid sh r0 q p
              (deliveryHistory client) n 1%nat _ db0 Hrec0 Hc0)
    as [Hrecn (cn & Hcn & Hqn & Hpn & Hhn)].
  fold dbn in Hrecn, Hcn. replace (n + 1)%nat with (S n) in Hhn by lia.
  split.
  - destruct Hrecn as (Hcoll & (l1 & l2 & Hl & _ & Hk) & _ & _ & (c' & _ & Hr0)).
    assert (index_key r0 = (cid, today, sh)) as Hkey by (by rewrite Hr0).
    pose proof (markClientDailyDelivered_unique_index cfg today sid cid sh db Hu)
      as Hu0.
    rewrite Hm in Hu0. simpl in Hu0.
    unfold records_for. rewrite Hcoll, <- Hkey.
    apply (filter_key_unique index_key); [done|].
    rewrite Hl. apply elem_of_app. right. by left.
  - exists cn. split_and!; [done..|].
    intros startOfMonth now Hs Hn.
    assert (billEntries startOfMonth now cn
            = billEntries startOfMonth now client
              ++ replicate (S n) (mkBillEntry today q p (PrimFloat.mul q p)))
      as Hbill.
    { unfold billEntries.
      rewrite Hhn, filter_app, fmap_app, Hpn. f_equal.
      generalize (S n) as m. intros m.
      induction m as [|m IH]; [done|].
      rewrite !replicate_S, filter_cons_True by (simpl; lia).
      by rewrite fmap_cons, IH. }
    split; [done|]. by rewrite Hbill, totalAmount_replicate.
Qed.

Lemma markClientDailyDelivered_rewrites_other_shift_witness :
  let r :=
    mkDelivery client_asha staff_ravi day0 "AM" "Delivered" 5%float 50%float
      None in
  let db' :=
    db_after
      (markClientDailyDelivered cfg0 day0 staff_ravi client_asha "AM"
         db_delivered)
      db_delivered in
  records_for client_asha day0 "PM" db' = [] ∧
  records_for client_asha day0 "AM" db' = [r] ∧
  length (deliveries db') = length (deliveries db_delivered) ∧
  notes r = notes ravi_delivered.
Proof.
  apply (markClientDailyDelivered_rewrites_other_shift cfg0 day0 staff_ravi
           client_asha "AM" db_delivered 0%nat ravi_delivered).
  - unfold unique_index. simpl. apply NoDup_singleton.
  - reflexivity.
  - discriminate.
  - reflexivity.
Defined.

Lemma repeated_delivered_history_witness :
  let dbn :=
    repeat_delivered cfg0 day0 client_asha "PM" (replicate 2 staff_ravi)
      db_delivered in
  records_for client_asha day0 "PM" dbn = [ravi_delivered] ∧
  ∃ clientn,
    clients dbn !! client_asha = Some clientn ∧
    deliveryHistory clientn
    = replicate 3 (mkHistoryEntry day0 "Delivered" 5%float None) ∧
    billEntries (day0 - 9 * day_ms) one_am clientn
    = replicate 3
        (mkBillEntry day0 5%float 10%float (PrimFloat.mul 5%float 10%float)) ∧
    totalAmount (billEntries (day0 - 9 * day_ms) one_am clientn) = 150%float.
Proof.
  destruct (repeated_delivered_history cfg0 day0 staff_ravi client_asha "PM"
              db_assigned (asha (Some staff_ravi)) ravi_delivered db_delivered
              2%nat)
    as (Hrec & clientn & Hc & Hh & Hbill).
  - unfold unique_index. simpl. apply NoDup_nil_2.
  - reflexivity.
  - reflexivity.
  - split; [exact Hrec|]. exists clientn. split; [exact Hc|].
    split; [exact Hh|].
    destruct (Hbill (day0 - 9 * day_ms) one_am) as [Hentries Htotal].
    + unfold day_ms. lia.
    + unfold one_am. lia.
    + split; [exact Hentries|]. rewrite Htotal. reflexivity.
Defined.

(** * The writers against each other *)



Lemma markClientDailyUndelivered_inserts cfg today sid cid reason sh db r db' :
  Forall (λ x, ¬ daily_query cid sid today x) (deliveries db) →
  markClientDailyUndelivered cfg today sid cid reason sh db = Ok r db' →
  r = not_delivered_doc today sid cid sh reason ∧
  deliveries db' = deliveries db ++ [r].
Proof.
  intros Hnone Hm. apply markClientDailyUndelivered_Ok in Hm
    as (staff & client & coll' & Hsh & _ & Hs & Hc & Hin & Hfou & ->).
  apply findOneAndUpdate_Some in Hfou
    as [(l1 & x & l2 & Hl & Hx & _)|(_ & -> & -> & _)].
  - exfalso. rewrite Forall_forall in Hnone. apply (Hnone x); [|done].
    rewrite Hl. apply elem_of_app. right. by left.
  - done.
Qed.


(** [markDailyDelivered] and [markDailyUndelivered] never create a
    record and never touch a client: whatever they answer, the clients
    are as before and the records differ from before in their status at
    most; when no record answers their query they answer 500. *)
Theorem markDaily_status_only status day sid cid db :
  let db' := db_after (markDaily status day sid cid db) db in
  staffs db' = staffs db ∧ clients db' = clients db ∧
  sessions db' = sessions db ∧
  set_deliveryStatus "" <$> deliveries db'
  = set_deliveryStatus "" <$> deliveries db ∧
  (filter (exact_day_query sid cid day) (deliveries db) = [] →
   markDaily status day sid cid db
   = Err 500 "Failed to update delivery status").
Proof.
  unfold markDaily.
  destruct (list_find _ _) as [[i r]|] eqn:Hfind; simpl.
  - split_and!; [done..| |].
    + rewrite list_fmap_insert. apply list_insert_id.
      apply list_find_Some in Hfind as (Hi & _ & _).
      by rewrite list_lookup_fmap, Hi.
    + intros Hnil. apply list_find_Some in Hfind as (Hi & Hq & _).
      apply filter_nil_none in Hnil. rewrite Forall_forall in Hnil.
      exfalso. apply (Hnil r); [|done]. by eapply list_elem_of_lookup_2.
  - done.
Qed.


(** [getDailyDeliveries] reads back what [markClientDailyDelivered]
    wrote: queried for the staff member and any time of that day, it
    lists the record joined with the client as the handler left it, and
    lists records of that staff member only. *)
Theorem markClientDailyDelivered_getDailyDeliveries
    cfg midnight now sid cid sh db r db' :
  markClientDailyDelivered cfg (midnight now) sid cid sh db = Ok r db' →
  ∃ rows client',
    getDailyDeliveries midnight (Some now) sid db' = Ok rows db' ∧
    clients db' !! cid = Some client' ∧
    c_deliveryStatus client' = "Delivered" ∧
    (r, Some client') ∈ rows ∧
    Forall (λ row, staffId row.1 = sid) rows.
Proof.
  intros Hm. set (today := midnight now) in *.
  pose proof Hm as Hm'. apply markClientDailyDelivered_Ok in Hm'
    as (staff & client & coll' & Hsh & Hs & Hc & Hin & Hfou & ->).
  assert (r ∈ coll' ∧ ∃ n, r = delivered_doc today sid cid sh client n)
    as [Hr [n Hrn]].
  { apply findOneAndUpdate_Some in Hfou
      as [(l1 & x & l2 & _ & _ & _ & -> & -> & _)|(_ & -> & -> & _)];
      (split; [apply elem_of_app; right; by left|by eexists]). }
  unfold getDailyDeliveries. eexists _, _. split; [done|]. simpl.
  rewrite lookup_insert_eq. split_and!; [done|done| |].
  - apply list_elem_of_fmap. exists r. split.
    + rewrite Hrn. simpl. by rewrite lookup_insert_eq.
    + apply list_elem_of_filter. split; [|done].
      rewrite Hrn. unfold in_range, day_ms. simpl. fold today.
      split_and!; [done|lia|lia].
  - apply Forall_fmap, Forall_forall. intros x Hx%list_elem_of_filter.
    simpl. apply Hx.
Qed.


Lemma markDaily_status_only_witness :
  markDaily "Delivered" day0 staff_meena client_asha db_delivered
  = Err 500 "Failed to update delivery status".
Proof.
  destruct (markDaily_status_only "Delivered" day0 staff_meena client_asha
              db_delivered)
    as (_ & _ & _ & _ & Hnone).
  apply Hnone. reflexivity.
Defined.


Lemma markClientDailyDelivered_getDailyDeliveries_witness :
  ∃ rows client',
    getDailyDeliveries utc_midnight (Some one_am) staff_ravi db_delivered
    = Ok rows db_delivered ∧
    clients db_delivered !! client_asha = Some client' ∧
    c_deliveryStatus client' = "Delivered" ∧
    (ravi_delivered, Some client') ∈ rows ∧
    Forall (λ row, staffId row.1 = staff_ravi) rows.
Proof.
  apply (markClientDailyDelivered_getDailyDeliveries cfg0 utc_midnight one_am
           staff_ravi client_asha "PM" db_assigned ravi_delivered db_delivered).
  reflexivity.
Defined.

(** * Group stages *)

Section GroupingFacts.
Context {R K G : Type} `{EqDecision K}.
Variables (key : G → K) (start : K → R → G) (acc : G → R → G).
Hypothesis key_start : ∀ k r, key (start k r) = k.
Hypothesis key_acc : ∀ g r, key (acc g r) = key g.

Lemma group_add_keys k r gs :
  key <$> group_add key start acc k r gs
  = if decide (k ∈ key <$> gs) then key <$> gs else (key <$> gs) ++ [k].
Proof.
  induction gs as [|g gs IH].
  - cbn [group_add]. rewrite fmap_cons, !fmap_nil, key_start.
    destruct (decide (k ∈ [])) as [Hin|Hin]; [|done].
    by apply elem_of_nil in Hin.
  - cbn [group_add]. destruct (decide (key g = k)) as [<-|Hne].
    + rewrite !fmap_cons, key_acc.
      destruct (decide (key g ∈ key g :: (key <$> gs))) as [Hin|Hin]; [done|].
      exfalso. apply Hin. by left.
    + rewrite !fmap_cons, IH.
      destruct (decide (k ∈ key <$> gs)) as [Hin|Hin];
        destruct (decide (k ∈ key g :: (key <$> gs))) as [Hin'|Hin']; try done.
      * exfalso. apply Hin'. by right.
      * exfalso. apply elem_of_cons in Hin' as [?|?]; [congruence|done].
Qed.

Lemma group_stage_keys (by_ : R → K) docs :
  NoDup (key <$> group_stage key start acc by_ docs) ∧
  ∀ k, k ∈ key <$> group_stage key start acc by_ docs ↔ k ∈ by_ <$> docs.
Proof.
  unfold group_stage.
  assert (∀ gs,
    NoDup (key <$> gs) →
    NoDup (key <$> foldl (λ gs r, group_add key start acc (by_ r) r gs) gs docs) ∧
    ∀ k, k ∈ key <$> foldl (λ gs r, group_add key start acc (by_ r) r gs) gs docs
         ↔ k ∈ key <$> gs ∨ k ∈ by_ <$> docs) as Hgen.
  { induction docs as [|r docs IH]; intros gs Hnd; simpl.
    - split; [done|]. intros k. rewrite elem_of_nil. tauto.
    - destruct (IH (group_add key start acc (by_ r) r gs)) as [Hnd' Hel].
      + rewrite group_add_keys. case_decide; [done|].
        apply NoDup_app. split_and!; [done| |apply NoDup_singleton].
        intros x Hx ->%list_elem_of_singleton. done.
      + split; [done|]. intros k. rewrite Hel, group_add_keys.
        rewrite elem_of_cons. case_decide as Hin.
        * split; [tauto|]. intros [?|[->|?]]; tauto.
        * rewrite elem_of_app, list_elem_of_singleton. tauto. }
  destruct (Hgen [] (NoDup_nil_2)) as [Hnd Hel]. split; [done|].
  intros k. rewrite Hel. simpl. rewrite elem_of_nil. tauto.
Qed.

(** A property of every first group that adding a document keeps holds
    of every group. *)
Lemma group_stage_Forall (Q : G → Prop) (by_ : R → K) docs :
  (∀ k r, Q (start k r)) → (∀ g r, Q g → Q (acc g r)) →
  Forall Q (group_stage key start acc by_ docs).
Proof.
  intros Hs Ha. unfold group_stage.
  assert (Forall Q []) as Hnil by done. revert Hnil.
  generalize (@nil G) as gs. induction docs as [|r docs IH]; intros gs Hgs; [done|].
  simpl. apply IH. clear IH. induction Hgs as [|g gs Hg Hgs IH]; simpl.
  - by apply Forall_singleton.
  - case_decide; apply Forall_cons; split; auto.
Qed.

(** A count that each document adds to its group adds up, over the
    groups, to the count over the documents. *)
Lemma group_stage_sum (proj : G → nat) (m : R → nat) (by_ : R → K) docs :
  (∀ k r, proj (start k r) = m r) →
  (∀ g r, proj (acc g r) = (proj g + m r)%nat) →
  sum_list_with proj (group_stage key start acc by_ docs) = sum_list_with m docs.
Proof.
  intros Hs Ha. unfold group_stage.
  assert (∀ gs,
    sum_list_with proj
      (foldl (λ gs r, group_add key start acc (by_ r) r gs) gs docs)
    = (sum_list_with proj gs + sum_list_with m docs)%nat) as Hgen.
  { induction docs as [|r docs IH]; intros gs; simpl; [lia|].
    rewrite IH. clear IH.
    assert (sum_list_with proj (group_add key start acc (by_ r) r gs)
            = (sum_list_with proj gs + m r)%nat) as ->; [|lia].
    induction gs as [|g gs IH]; simpl.
    - rewrite Hs. lia.
    - case_decide; simpl; [rewrite Ha|rewrite IH]; lia. }
  by rewrite Hgen.
Qed.

End GroupingFacts.

Lemma sum_list_with_fmap {A B} (f : B → nat) (g : A → B) (l : list A) :
  sum_list_with f (g <$> l) = sum_list_with (f ∘ g) l.
Proof. induction l as [|x l IH]; simpl; [done|]. f_equal. exact IH. Qed.

Lemma sum_cond_status s (docs : list DailyDeliveryDoc) :
  sum_list_with (cond_status s) docs
  = length (filter (λ r, deliveryStatus r = s) docs).
Proof.
  induction docs as [|r docs IH]; [done|]. simpl. unfold cond_status at 1.
  case_bool_decide.
  - rewrite filter_cons_True by done. simpl. by rewrite IH.
  - rewrite filter_cons_False by done. by rewrite IH.
Qed.

Lemma sum_ones {A} (l : list A) : sum_list_with (λ _, 1%nat) l = length l.
Proof. induction l as [|x l IH]; simpl; [done|]. by rewrite IH. Qed.

Lemma delivered_count startDate endDate db :
  sr_delivered (getDeliverySuccessRate startDate endDate db)
  = length (filter (λ r, deliveryStatus r = "Delivered")
              (filter (in_range startDate endDate) (deliveries db))).
Proof.
  unfold getDeliverySuccessRate, countDocuments. simpl.
  rewrite list_filter_filter. f_equal. apply filter_ext_elem.
  intros r _. tauto.
Qed.

(** * Staff performance and shift analytics *)

(** The staff groups of a range add up to the ungrouped success rate of
    the range: their delivered counts to its delivered count and, when
    the collection respects the schema, their delivered and
    not-delivered counts to its total.  No staff member has two
    groups. *)
Theorem getStaffPerformance_sums startDate endDate db :
  let perf := getStaffPerformance startDate endDate db in
  let rate := getDeliverySuccessRate startDate endDate db in
  NoDup (sp_id <$> perf) ∧
  sum_list_with sp_deliveredCount perf = sr_delivered rate ∧
  (schema_valid db →
   sum_list_with (λ g, sp_deliveredCount g + sp_notDeliveredCount g)%nat perf
   = sr_total rate).
Proof.
  intros perf rate. subst perf rate. unfold getStaffPerformance.
  set (docs := filter (in_range startDate endDate) (deliveries db)).
  set (start := λ k r, staff_accumulate (mkStaffGroup k 0 0 0%float 0%float) r).
  split_and!.
  - rewrite <- list_fmap_compose.
    by apply (group_stage_keys sg_id start staff_accumulate).
  - rewrite sum_list_with_fmap, delivered_count. fold docs.
    rewrite <- sum_cond_status.
    by apply (group_stage_sum sg_id start staff_accumulate).
  - intros Hv. rewrite sum_list_with_fmap.
    rewrite (group_stage_sum sg_id start staff_accumulate _
               (λ r, cond_status "Delivered" r + cond_status "Not Delivered" r)%nat);
      [|done|intros g r; simpl; lia].
    unfold getDeliverySuccessRate, countDocuments. simpl. fold docs.
    rewrite <- sum_ones.
    assert (Forall (λ r, schema_status (deliveryStatus r)) docs) as Hdocs.
    { unfold schema_valid in Hv. rewrite Forall_forall in Hv |- *.
      intros r Hr%list_elem_of_filter. apply Hv, Hr. }
    clear -Hdocs. induction Hdocs as [|r docs Hr _ IH]; [done|]. simpl.
    rewrite IH. unfold cond_status.
    destruct Hr as [-> | ->]; by rewrite !bool_decide_decide.
Qed.

(** The shift groups of a range add up to the ungrouped success rate of
    the range.  No shift has two groups, every group holds at least one
    record, and so its rate is delivered / count * 100, never the 0 of
    the division guard. *)
Theorem getShiftAnalytics_sums startDate endDate db :
  let shifts := getShiftAnalytics startDate endDate db in
  let rate := getDeliverySuccessRate startDate endDate db in
  NoDup (sa_shift <$> shifts) ∧
  sum_list_with sa_deliveryCount shifts = sr_total rate ∧
  sum_list_with sa_deliveredCount shifts = sr_delivered rate ∧
  Forall (λ a,
    (1 ≤ sa_deliveryCount a)%nat ∧
    (sa_deliveredCount a ≤ sa_deliveryCount a)%nat ∧
    sa_successRate a
    = PrimFloat.mul
        (PrimFloat.div (number_of_nat (sa_deliveredCount a))
           (number_of_nat (sa_deliveryCount a))) 100%float) shifts.
Proof.
  intros shifts rate. subst shifts rate. unfold getShiftAnalytics.
  set (docs := filter (in_range startDate endDate) (deliveries db)).
  set (start := λ k r, shift_accumulate (mkShiftGroup k 0 0 0%float 0%float) r).
  split_and!.
  - rewrite <- list_fmap_compose.
    by apply (group_stage_keys shg_id start shift_accumulate).
  - rewrite sum_list_with_fmap.
    rewrite (group_stage_sum shg_id start shift_accumulate _ (λ _, 1%nat));
      [|done..].
    by rewrite sum_ones.
  - rewrite sum_list_with_fmap, delivered_count. fold docs.
    rewrite <- sum_cond_status.
    by apply (group_stage_sum shg_id start shift_accumulate).
  - apply Forall_fmap.
    eapply Forall_impl;
      [apply (group_stage_Forall shg_id start shift_accumulate
                (λ g, (1 ≤ shg_deliveryCount g)%nat ∧
                      (shg_deliveredCount g ≤ shg_deliveryCount g)%nat))|].
    + intros k r. simpl. unfold cond_status. case_bool_decide; lia.
    + intros g r [H1 H2]. simpl. unfold cond_status. case_bool_decide; lia.
    + intros g [H1 H2]. simpl. split_and!; [done..|].
      rewrite bool_decide_eq_false_2 by lia. done.
Qed.

(** Deleting a staff member changes nothing in the staff performance
    but the name of that staff member's group, which becomes "Unknown
    Staff": the records they wrote keep counting. *)
Theorem getStaffPerformance_after_removeStaff startDate endDate sid db msg db' :
  removeStaff sid db = Ok msg db' →
  getStaffPerformance startDate endDate db'
  = (λ p, if bool_decide (sp_id p = sid)
          then mkStaffPerformance (sp_id p) "Unknown Staff"
                 (sp_deliveredCount p) (sp_notDeliveredCount p)
                 (sp_totalQuantity p) (sp_totalRevenue p) (sp_successRate p)
          else p)
    <$> getStaffPerformance startDate endDate db.
Proof.
  unfold removeStaff. destruct (staffs db !! sid) as [s|] eqn:Hs; [|done].
  intros [= <- <-]. unfold getStaffPerformance. simpl.
  rewrite <- list_fmap_compose. apply list_fmap_ext. intros i g _.
  unfold compose, staff_project. cbn [sp_id staffs set_staffs].
  destruct (decide (sg_id g = sid)) as [Heq|Hne].
  - rewrite (bool_decide_eq_true_2 (sg_id g = sid)) by done.
    replace (delete sid (staffs db) !! sg_id g) with (@None StaffDoc)
      by (by rewrite Heq, lookup_delete_eq).
    done.
  - rewrite (bool_decide_eq_false_2 (sg_id g = sid)) by done.
    by rewrite lookup_delete_ne.
Qed.

Lemma getStaffPerformance_sums_witness :
  sum_list_with (λ g, sp_deliveredCount g + sp_notDeliveredCount g)%nat
    (getStaffPerformance day0 (day0 + day_ms - 1) db_three)
  = 3%nat.
Proof.
  destruct (getStaffPerformance_sums day0 (day0 + day_ms - 1) db_three)
    as (_ & _ & Htotal).
  rewrite Htotal; [reflexivity|].
  unfold schema_valid. simpl.
  repeat (apply Forall_cons; split; [unfold schema_status; tauto|]).
  apply Forall_nil_2.
Defined.

Lemma getStaffPerformance_after_removeStaff_witness :
  let db' := db_after (removeStaff staff_ravi db_delivered) db_delivered in
  getStaffPerformance day0 (day0 + day_ms - 1) db'
  = (λ p, if bool_decide (sp_id p = staff_ravi)
          then mkStaffPerformance (sp_id p) "Unknown Staff"
                 (sp_deliveredCount p) (sp_notDeliveredCount p)
                 (sp_totalQuantity p) (sp_totalRevenue p) (sp_successRate p)
          else p)
    <$> getStaffPerformance day0 (day0 + day_ms - 1) db_delivered.
Proof.
  apply (getStaffPerformance_after_removeStaff day0 (day0 + day_ms - 1)
           staff_ravi db_delivered "Staff member deleted successfully").
  reflexivity.
Defined.

(** * Totals *)




(** A failed delivery recorded for a client with no record yet that day
    leaves the totals of every range as they were. *)
Theorem getTodaysDeliveryTotal_after_undelivered
    cfg today sid cid reason sh db r db' startDate endDate :
  Forall (λ x, ¬ daily_query cid sid today x) (deliveries db) →
  markClientDailyUndelivered cfg today sid cid reason sh db = Ok r db' →
  getTodaysDeliveryTotal startDate endDate db'
  = getTodaysDeliveryTotal startDate endDate db ∧
  (startDate ≤ today → today ≤ endDate →
   sr_total (getDeliverySuccessRate startDate endDate db')
   = S (sr_total (getDeliverySuccessRate startDate endDate db)) ∧
   sr_delivered (getDeliverySuccessRate startDate endDate db')
   = sr_delivered (getDeliverySuccessRate startDate endDate db)).
Proof.
  intros Hnone Hm.
  apply (markClientDailyUndelivered_inserts _ _ _ _ _ _ _ _ _ Hnone) in Hm
    as [-> Hcoll].
  split_and!.
  - unfold getTodaysDeliveryTotal.
    rewrite Hcoll, filter_app, filter_cons_False, filter_nil, app_nil_r; [done|].
    by intros [_ ?].
  - intros Hs He. unfold getDeliverySuccessRate, countDocuments. simpl.
    rewrite Hcoll, !filter_app, filter_cons_True, filter_cons_False, !filter_nil.
    + rewrite app_nil_r, length_app. simpl. split; [lia|done].
    + by intros [_ ?].
    + split; simpl; lia.
Qed.


Lemma getTodaysDeliveryTotal_after_undelivered_witness :
  getTodaysDeliveryTotal day0 (day0 + day_ms - 1) db_not_delivered
  = getTodaysDeliveryTotal day0 (day0 + day_ms - 1) db_assigned ∧
  sr_total (getDeliverySuccessRate day0 (day0 + day_ms - 1) db_not_delivered)
  = S (sr_total (getDeliverySuccessRate day0 (day0 + day_ms - 1) db_assigned)) ∧
  sr_delivered (getDeliverySuccessRate day0 (day0 + day_ms - 1) db_not_delivered)
  = sr_delivered (getDeliverySuccessRate day0 (day0 + day_ms - 1) db_assigned).
Proof.
  destruct (getTodaysDeliveryTotal_after_undelivered cfg0 day0 staff_ravi
              client_asha "gate locked" "PM" db_assigned ravi_not_delivered
              db_not_delivered day0 (day0 + day_ms - 1))
    as [Htotals Hrate].
  - simpl. apply Forall_nil_2.
  - reflexivity.
  - split; [exact Htotals|]. apply Hrate.
    + lia.
    + unfold day_ms. lia.
Defined.

(** * Trend buckets *)

Lemma trend_group_add_generic k r gs :
  trend_group_add k r gs
  = group_add g_id
      (λ k r, trend_accumulate (mkTrendGroup k 0 0 0%float 0%float) r)
      trend_accumulate k r gs.
Proof. induction gs as [|g gs IH]; simpl; [done|]. by rewrite IH. Qed.

Lemma trend_group_stage_generic p docs :
  trend_group_stage p docs
  = group_stage g_id
      (λ k r, trend_accumulate (mkTrendGroup k 0 0 0%float 0%float) r)
      trend_accumulate (λ r, groupBy p (date r)) docs.
Proof.
  unfold trend_group_stage, group_stage. generalize (@nil TrendGroup) as gs.
  induction docs as [|r docs IH]; intros gs; [done|]. simpl.
  by rewrite IH, trend_group_add_generic.
Qed.

(** The trend buckets of a range count every record of the range once:
    no key has two buckets, every bucket holds at least one record, and
    the delivery counts of the buckets add up to the number of records
    in the range. *)
Theorem getDeliveryTrends_totals p startDate endDate db :
  let buckets := getDeliveryTrends p startDate endDate db in
  NoDup (period <$> buckets) ∧
  Forall (λ b, (1 ≤ totalDeliveries b)%nat) buckets ∧
  sum_list_with totalDeliveries buckets
  = sr_total (getDeliverySuccessRate startDate endDate db).
Proof.
  intros buckets. subst buckets. unfold getDeliveryTrends.
  set (docs := filter (in_range startDate endDate) (deliveries db)).
  set (start := λ k r, trend_accumulate (mkTrendGroup k 0 0 0%float 0%float) r).
  rewrite trend_group_stage_generic. fold start.
  split_and!.
  - rewrite sort_by_perm, <- list_fmap_compose.
    by apply (group_stage_keys g_id start trend_accumulate).
  - apply sort_by_Forall, Forall_fmap.
    apply (group_stage_Forall g_id start trend_accumulate
             (λ g, (1 ≤ g_totalDeliveries g)%nat)).
    + intros k r. simpl. lia.
    + intros g r Hg. simpl. lia.
  - rewrite sort_by_perm, sum_list_with_fmap.
    rewrite (group_stage_sum g_id start trend_accumulate _ (λ _, 1%nat));
      [|done..].
    by rewrite sum_ones.
Qed.

(** * The latest record of each client *)

Section FirstPerKey.
Context {R K : Type} `{EqDecision K} (key : R → K).

Lemma first_group_add r gs :
  group_add key (λ _ r, r) (λ g _, g) (key r) r gs
  = if decide (key r ∈ key <$> gs) then gs else gs ++ [r].
Proof.
  induction gs as [|g gs IH].
  - simpl. destruct (decide (key r ∈ [])) as [Hin|Hin]; [|done].
    by apply elem_of_nil in Hin.
  - cbn [group_add]. rewrite fmap_cons.
    destruct (decide (key g = key r)) as [Heq|Hne].
    + destruct (decide (key r ∈ key g :: (key <$> gs))) as [Hin|Hin]; [done|].
      exfalso. apply Hin. rewrite Heq. by left.
    + rewrite IH. destruct (decide (key r ∈ key <$> gs)) as [Hin|Hin];
        destruct (decide (key r ∈ key g :: (key <$> gs))) as [Hin'|Hin']; try done.
      * exfalso. apply Hin'. by right.
      * exfalso. apply elem_of_cons in Hin' as [?|?]; [congruence|done].
Qed.


Lemma first_fold_elem gs docs x :
  x ∈ foldl (first_step key) gs docs → x ∈ gs ∨ x ∈ docs.
Proof.
  revert gs. induction docs as [|r docs IH]; intros gs Hx; [by left|].
  simpl in Hx. apply IH in Hx as [Hx|Hx]; [|right; by right].
  unfold first_step in Hx. rewrite first_group_add in Hx.
  case_decide; [by left|].
  apply elem_of_app in Hx as [Hx|Hx]; [by left|].
  apply list_elem_of_singleton in Hx as ->. right. by left.
Qed.

Lemma first_fold_incl gs docs x : x ∈ gs → x ∈ foldl (first_step key) gs docs.
Proof.
  revert gs. induction docs as [|r docs IH]; intros gs Hx; [done|].
  simpl. apply IH. unfold first_step. rewrite first_group_add.
  case_decide; [done|]. apply elem_of_app. by left.
Qed.

Lemma first_fold_NoDup gs docs :
  NoDup (key <$> gs) → NoDup (key <$> foldl (first_step key) gs docs).
Proof.
  revert gs. induction docs as [|r docs IH]; intros gs Hnd; [done|].
  simpl. apply IH. unfold first_step. rewrite first_group_add.
  case_decide; [done|]. rewrite fmap_app. apply NoDup_app.
  split_and!; [done| |apply NoDup_singleton].
  intros k Hk ->%list_elem_of_singleton. done.
Qed.

Lemma first_fold_covers gs docs r :
  r ∈ docs → key r ∈ key <$> foldl (first_step key) gs docs.
Proof.
  revert gs. induction docs as [|d docs IH]; intros gs Hr;
    [by apply elem_of_nil in Hr|].
  simpl. apply elem_of_cons in Hr as [->|Hr]; [|by apply IH].
  assert (key d ∈ key <$> first_step key gs d) as (g & Hk & Hg)%list_elem_of_fmap.
  { unfold first_step. rewrite first_group_add. case_decide; [done|].
    rewrite fmap_app. apply elem_of_app. right. by left. }
  rewrite Hk. apply list_elem_of_fmap_2. by apply first_fold_incl.
Qed.

Lemma NoDup_key_inj (l : list R) x y :
  NoDup (key <$> l) → x ∈ l → y ∈ l → key x = key y → x = y.
Proof.
  intros Hnd Hx Hy Hk.
  assert (filter (λ z, key z = key x) l = [x]) as H1
    by (by apply (filter_key_unique key)).
  assert (y ∈ filter (λ z, key z = key x) l) as H2
    by (by apply list_elem_of_filter).
  rewrite H1 in H2. by apply list_elem_of_singleton in H2.
Qed.

Variable leb : R → R → bool.
Hypothesis leb_total : ∀ x y, leb x y = true ∨ leb y x = true.

Lemma first_fold_least gs docs :
  NoDup (key <$> gs) →
  (∀ g r, g ∈ gs → r ∈ docs → leb g r = true) →
  sorted_all leb docs →
  ∀ x r, x ∈ foldl (first_step key) gs docs → r ∈ docs → key r = key x →
         leb x r = true.
Proof.
  revert gs. induction docs as [|d docs IH]; intros gs Hnd Hgs Hsorted x r Hx Hr Hk;
    [by apply elem_of_nil in Hr|].
  destruct Hsorted as [Hd Hsorted]. simpl in Hx.
  assert (NoDup (key <$> first_step key gs d)) as Hnd'.
  { unfold first_step. rewrite first_group_add. case_decide; [done|].
    rewrite fmap_app. apply NoDup_app.
    split_and!; [done| |apply NoDup_singleton].
    intros k Hk' ->%list_elem_of_singleton. done. }
  assert (∀ g r, g ∈ first_step key gs d → r ∈ docs → leb g r = true) as Hgs'.
  { intros g r' Hg Hr'. unfold first_step in Hg. rewrite first_group_add in Hg.
    case_decide.
    - apply Hgs; [done|by right].
    - apply elem_of_app in Hg as [Hg|Hg]; [apply Hgs; [done|by right]|].
      apply list_elem_of_singleton in Hg as ->.
      rewrite Forall_forall in Hd. by apply Hd. }
  apply elem_of_cons in Hr as [->|Hr]; [|by eapply (IH _ Hnd' Hgs' Hsorted)].
  assert (x ∈ first_step key gs d) as Hxin.
  { assert (key d ∈ key <$> first_step key gs d) as (g & Hkg & Hg)%list_elem_of_fmap.
    { unfold first_step. rewrite first_group_add. case_decide; [done|].
      rewrite fmap_app. apply elem_of_app. right. by left. }
    assert (x = g) as ->; [|done].
    eapply (NoDup_key_inj (foldl (first_step key) (first_step key gs d) docs));
      [by apply first_fold_NoDup|done|by apply first_fold_incl|congruence]. }
  unfold first_step in Hxin. rewrite first_group_add in Hxin. case_decide.
  - apply Hgs; [done|by left].
  - apply elem_of_app in Hxin as [Hxin|Hxin]; [apply Hgs; [done|by left]|].
    apply list_elem_of_singleton in Hxin as ->.
    destruct (leb_total d d); done.
Qed.

End FirstPerKey.

(** [getTodaysDeliveryRecords] renders one record per client: the
    aggregation answers with stored records of the range (and of the
    shift asked for), no two of the same client, each joined with its
    client and staff documents when they exist; every client with a
    record in the range has one, and it is a latest one of that
    client. *)
Theorem todaysDeliveryRecords_latest startDate endDate shiftFilter db :
  let rows := todaysDeliveryRecords startDate endDate shiftFilter db in
  NoDup ((λ row, clientId row.1.1) <$> rows) ∧
  (∀ row, row ∈ rows →
     row.1.1 ∈ deliveries db ∧
     records_match startDate endDate shiftFilter row.1.1 ∧
     row.1.2 = clients db !! clientId row.1.1 ∧
     row.2 = staffs db !! staffId row.1.1) ∧
  (∀ r, r ∈ deliveries db → records_match startDate endDate shiftFilter r →
     ∃ row, row ∈ rows ∧ clientId row.1.1 = clientId r ∧
            date r ≤ date row.1.1).
Proof.
  intros rows. subst rows. unfold todaysDeliveryRecords.
  set (docs := sort_by (λ a b, date b <=? date a)
                 (filter (records_match startDate endDate shiftFilter)
                    (deliveries db))).
  set (firsts := group_stage clientId (λ _ r, r) (λ g _, g) clientId docs).
  assert (firsts = foldl (first_step clientId) [] docs) as Hfirsts by done.
  assert (∀ r, r ∈ docs ↔
               r ∈ deliveries db ∧ records_match startDate endDate shiftFilter r)
    as Hdocs.
  { intros r. unfold docs. rewrite sort_by_elem, list_elem_of_filter. tauto. }
  split_and!.
  - rewrite <- list_fmap_compose. rewrite Hfirsts.
    apply (first_fold_NoDup clientId). apply NoDup_nil_2.
  - intros row ([r] & -> & Hr)%list_elem_of_fmap. simpl.
    rewrite Hfirsts in Hr. apply first_fold_elem in Hr as [Hr|Hr];
      [by apply elem_of_nil in Hr|].
    apply Hdocs in Hr as [? ?]. done.
  - intros r Hr Hmatch.
    assert (r ∈ docs) as Hrd by (by apply Hdocs).
    pose proof (first_fold_covers clientId [] docs r Hrd) as Hcov.
    rewrite <- Hfirsts in Hcov.
    apply list_elem_of_fmap in Hcov as (x & Hk & Hx).
    exists (x, clients db !! clientId x, staffs db !! staffId x).
    split_and!; [apply list_elem_of_fmap; by exists x|done|]. simpl.
    assert ((date r <=? date x) = true) as Hle; [|by apply Z.leb_le].
    apply (first_fold_least clientId (λ a b, date b <=? date a)) with [] docs.
    + intros a b. destruct (Z.leb_spec (date b) (date a)); [by left|right].
      apply Z.leb_le. lia.
    + apply NoDup_nil_2.
    + intros g r' Hg. by apply elem_of_nil in Hg.
    + apply sort_by_sorted_all.
      * intros a b. destruct (Z.leb_spec (date b) (date a)); [by left|right].
        apply Z.leb_le. lia.
      * intros a b c H1%Z.leb_le H2%Z.leb_le. apply Z.leb_le. lia.
    + by rewrite <- Hfirsts.
    + done.
    + done.
Qed.

(** * Delivery history *)

Lemma sorted_all_fmap {A B} (f : A → B) (leb : A → A → bool)
    (leb' : B → B → bool) (l : list A) :
  (∀ x y, leb' (f x) (f y) = leb x y) →
  sorted_all leb l → sorted_all leb' (f <$> l).
Proof.
  intros Hf. induction l as [|x l IH]; intros Hl; [done|].
  destruct Hl as [Hx Hl]. rewrite fmap_cons. split; [|by apply IH].
  apply Forall_fmap. eapply Forall_impl; [exact Hx|].
  intros y Hy. simpl. by rewrite Hf.
Qed.

(** For a known client [getDeliveryHistory] answers with the client's
    name and log and with exactly the client's records within the
    bounds given, each with the name of its staff member when that
    staff member still exists, in descending order of date. *)
Theorem getDeliveryHistory_lists startDate endDate cid db client :
  clients db !! cid = Some client →
  ∃ h,
    getDeliveryHistory startDate endDate cid db = Ok h db ∧
    dh_client h = c_name client ∧
    dh_clientHistory h = deliveryHistory client ∧
    (∀ r name, (r, name) ∈ dh_deliveries h ↔
       r ∈ deliveries db ∧ history_match cid startDate endDate r ∧
       name = s_name <$> staffs db !! staffId r) ∧
    sorted_all (λ a b, date b.1 <=? date a.1) (dh_deliveries h).
Proof.
  intros Hc. unfold getDeliveryHistory. rewrite Hc. eexists. split; [done|].
  simpl. split_and!; [done..| |].
  - intros r name. rewrite list_elem_of_fmap. split.
    + intros (x & [= -> ->] & Hx). rewrite sort_by_elem in Hx.
      apply list_elem_of_filter in Hx as [? ?]. done.
    + intros (Hr & Hmatch & ->). exists r. split; [done|].
      rewrite sort_by_elem. by apply list_elem_of_filter.
  - apply (sorted_all_fmap _ (λ a b, date b <=? date a)); [done|].
    apply sort_by_sorted_all.
    + intros a b. destruct (Z.leb_spec (date b) (date a)); [by left|right].
      apply Z.leb_le. lia.
    + intros a b c H1%Z.leb_le H2%Z.leb_le. apply Z.leb_le. lia.
Qed.

Lemma getDeliveryHistory_lists_witness :
  ∃ h,
    getDeliveryHistory (Some day0) None client_asha db_delivered
    = Ok h db_delivered ∧
    dh_client h = "Asha" ∧
    dh_clientHistory h = [mkHistoryEntry day0 "Delivered" 5%float None] ∧
    (∀ r name, (r, name) ∈ dh_deliveries h ↔
       r ∈ deliveries db_delivered ∧
       history_match client_asha (Some day0) None r ∧
       name = s_name <$> staffs db_delivered !! staffId r) ∧
    sorted_all (λ a b, date b.1 <=? date a.1) (dh_deliveries h).
Proof.
  apply (getDeliveryHistory_lists (Some day0) None client_asha db_delivered
           (asha_delivered (Some staff_ravi))).
  reflexivity.
Defined.
